(** * Geospatial query core of the tourist-guide backend

    A shallow embedding of [src/services/geoService.ts] and
    [src/services/dataService.ts]: the coordinate sanitizer, the distance
    primitives, the nearest-route ranking, the viewport query and the
    dataset cache.

    Numbers.  A JavaScript number is modelled as a real number extended
    with the three special values the code observes: [NaN], [+Infinity]
    and [-Infinity].  Arithmetic on finite values is exact (no rounding,
    no overflow, no underflow, no signed zero); arithmetic involving a
    special value follows ECMA-262 (a zero divisor is read as +0).  The
    library functions of [Math] are the ones of the real numbers on
    finite arguments.  A property that gives the value of a distance at
    finite inputs therefore bounds the inputs ([moderate]) so that the
    source's double arithmetic does not overflow on them either.

    Untyped data.  The dataset comes from an HTTP payload, so polygon
    coordinates are modelled as untyped JavaScript values ([value]).

    External library.  The functions of [@turf/turf] are not part of the
    repository; they are parameters of the sections that use them. *)

From Stdlib Require Import String.
From Stdlib Require Import Reals Lra Lia ZArith List Bool.
From Stdlib Require Import Permutation Sorted.
Import ListNotations.

(** ** JavaScript numbers *)

Module Num.

Local Open Scope R_scope.

Inductive number : Type :=
| NaN
| PInf
| NInf
| Fin (r : R).

Definition Reqb (x y : R) : bool := if Req_dec_T x y then true else false.
Definition Rltb (x y : R) : bool := if Rlt_dec x y then true else false.

(** [isNaN(x)] on a number. *)
Definition isNaN (a : number) : bool :=
  match a with NaN => true | _ => false end.

(** [a === b] on numbers: [NaN] is different from itself. *)
Definition strict_eq (a b : number) : bool :=
  match a, b with
  | PInf, PInf => true
  | NInf, NInf => true
  | Fin x, Fin y => Reqb x y
  | _, _ => false
  end.

(** [a !== b]. *)
Definition strict_ne (a b : number) : bool := negb (strict_eq a b).

(** [a < b]: false as soon as one side is [NaN]. *)
Definition lt (a b : number) : bool :=
  match a, b with
  | NaN, _ | _, NaN => false
  | _, NInf => false
  | NInf, _ => true
  | PInf, _ => false
  | Fin _, PInf => true
  | Fin x, Fin y => Rltb x y
  end.

(** [a > b]. *)
Definition gt (a b : number) : bool := lt b a.

(** Unary minus. *)
Definition neg (a : number) : number :=
  match a with
  | NaN => NaN
  | PInf => NInf
  | NInf => PInf
  | Fin x => Fin (- x)
  end.

(** [a + b]. *)
Definition add (a b : number) : number :=
  match a, b with
  | NaN, _ | _, NaN => NaN
  | PInf, NInf | NInf, PInf => NaN
  | PInf, _ | _, PInf => PInf
  | NInf, _ | _, NInf => NInf
  | Fin x, Fin y => Fin (x + y)
  end.

(** [a - b]. *)
Definition sub (a b : number) : number :=
  match a, b with
  | NaN, _ | _, NaN => NaN
  | PInf, PInf | NInf, NInf => NaN
  | PInf, _ | _, NInf => PInf
  | NInf, _ | _, PInf => NInf
  | Fin x, Fin y => Fin (x - y)
  end.

(** The infinity with the sign of [x]; [NaN] at zero (zero times infinity). *)
Definition inf_of_sign (x : R) : number :=
  if Rlt_dec 0 x then PInf else if Rlt_dec x 0 then NInf else NaN.

(** [a * b]. *)
Definition mul (a b : number) : number :=
  match a, b with
  | NaN, _ | _, NaN => NaN
  | Fin x, Fin y => Fin (x * y)
  | Fin x, PInf | PInf, Fin x => inf_of_sign x
  | Fin x, NInf | NInf, Fin x => neg (inf_of_sign x)
  | PInf, PInf | NInf, NInf => PInf
  | PInf, NInf | NInf, PInf => NInf
  end.

(** [a / b]; a zero divisor is +0. *)
Definition div (a b : number) : number :=
  match a, b with
  | NaN, _ | _, NaN => NaN
  | Fin x, Fin y => if Req_dec_T y 0 then inf_of_sign x else Fin (x / y)
  | Fin _, PInf | Fin _, NInf => Fin 0
  | PInf, Fin y => if Rlt_dec y 0 then NInf else PInf
  | NInf, Fin y => if Rlt_dec y 0 then PInf else NInf
  | _, _ => NaN
  end.

(** [Math.min(a, b)] and [Math.max(a, b)]. *)
Definition min (a b : number) : number :=
  match a, b with
  | NaN, _ | _, NaN => NaN
  | _, _ => if lt b a then b else a
  end.

Definition max (a b : number) : number :=
  match a, b with
  | NaN, _ | _, NaN => NaN
  | _, _ => if lt a b then b else a
  end.

(** [Math.PI], [Math.sin], [Math.cos], [Math.sqrt], [Math.atan2]. *)
Definition PI : number := Fin Rtrigo1.PI.

Definition sin (a : number) : number :=
  match a with Fin x => Fin (Rtrigo_def.sin x) | _ => NaN end.

Definition cos (a : number) : number :=
  match a with Fin x => Fin (Rtrigo_def.cos x) | _ => NaN end.

Definition sqrt (a : number) : number :=
  match a with
  | NaN | NInf => NaN
  | PInf => PInf
  | Fin x => if Rlt_dec x 0 then NaN else Fin (R_sqrt.sqrt x)
  end.

Definition atan2 (y x : number) : number :=
  match y, x with
  | NaN, _ | _, NaN => NaN
  | Fin y, Fin x =>
      if Rlt_dec 0 x then Fin (atan (y / x))
      else if Rlt_dec x 0 then
             if Rlt_dec y 0 then Fin (atan (y / x) - Rtrigo1.PI)
             else Fin (atan (y / x) + Rtrigo1.PI)
      else if Rlt_dec 0 y then Fin (Rtrigo1.PI / 2)
      else if Rlt_dec y 0 then Fin (- (Rtrigo1.PI / 2))
      else Fin 0
  | Fin _, PInf => Fin 0
  | Fin y, NInf => if Rlt_dec y 0 then Fin (- Rtrigo1.PI) else Fin Rtrigo1.PI
  | PInf, Fin _ => Fin (Rtrigo1.PI / 2)
  | NInf, Fin _ => Fin (- (Rtrigo1.PI / 2))
  | PInf, PInf => Fin (Rtrigo1.PI / 4)
  | PInf, NInf => Fin (3 * Rtrigo1.PI / 4)
  | NInf, PInf => Fin (- (Rtrigo1.PI / 4))
  | NInf, NInf => Fin (- (3 * Rtrigo1.PI / 4))
  end.

(** Truthiness of a number: [0] and [NaN] are falsy. *)
Definition truthy (a : number) : bool :=
  match a with
  | NaN => false
  | Fin x => negb (Reqb x 0)
  | _ => true
  end.

End Num.

Abbreviation number := Num.number.
Abbreviation NaN := Num.NaN.
Abbreviation PInf := Num.PInf.
Abbreviation NInf := Num.NInf.
Abbreviation Fin := Num.Fin.

(** A [number[]] used as a coordinate pair [[lng, lat]]. *)
Definition coord : Type := (number * number)%type.

(** ** Distance primitives ([GeoService], private methods) *)

Definition toRadians (degrees : number) : number :=
  Num.div (Num.mul degrees Num.PI) (Fin 180).

Definition haversineDistance (point1 point2 : coord) : number :=
  let '(lon1, lat1) := point1 in
  let '(lon2, lat2) := point2 in
  let R := Fin 6371 in
  let dLat := toRadians (Num.sub lat2 lat1) in
  let dLon := toRadians (Num.sub lon2 lon1) in
  let a :=
    Num.add
      (Num.mul (Num.sin (Num.div dLat (Fin 2))) (Num.sin (Num.div dLat (Fin 2))))
      (Num.mul
         (Num.mul
            (Num.mul (Num.cos (toRadians lat1)) (Num.cos (toRadians lat2)))
            (Num.sin (Num.div dLon (Fin 2))))
         (Num.sin (Num.div dLon (Fin 2)))) in
  let c := Num.mul (Fin 2) (Num.atan2 (Num.sqrt a) (Num.sqrt (Num.sub (Fin 1) a))) in
  Num.mul R c.

Definition pointToLineDistance (point lineStart lineEnd : coord) : number :=
  let '(x, y) := point in
  let '(x1, y1) := lineStart in
  let '(x2, y2) := lineEnd in
  if Num.strict_eq x1 x2 && Num.strict_eq y1 y2 then
    haversineDistance (x, y) (x1, y1)
  else
    let A := Num.sub x x1 in
    let B := Num.sub y y1 in
    let C := Num.sub x2 x1 in
    let D := Num.sub y2 y1 in
    let dot := Num.add (Num.mul A C) (Num.mul B D) in
    let lenSq := Num.add (Num.mul C C) (Num.mul D D) in
    let param :=
      if Num.strict_ne lenSq (Fin 0) then Num.div dot lenSq else Fin (-1) in
    let '(xx, yy) :=
      if Num.lt param (Fin 0) then (x1, y1)
      else if Num.gt param (Fin 1) then (x2, y2)
      else (Num.add x1 (Num.mul param C), Num.add y1 (Num.mul param D)) in
    haversineDistance (x, y) (xx, yy).

(** ** Untyped values ([any]) *)

(** A JavaScript value as it comes out of a JSON payload.  A string is
    carried together with the number its text denotes under the
    language's string-to-number conversion, whose literal grammar is not
    modelled. *)
#[warnings="-register-all"]
Inductive value : Type :=
| VUndefined
| VNull
| VBool (b : bool)
| VNum (n : number)
| VStr (s : string) (numeric : number)
| VObj
| VArr (elems : list value).

(** [Number(v)].  An array is converted through its string form: the
    empty array reads as 0, a one-element array as its element, a longer
    one as [NaN] (its string form has a comma). *)
Fixpoint ToNumber (v : value) : number :=
  match v with
  | VUndefined => NaN
  | VNull => Fin 0
  | VBool b => if b then Fin 1 else Fin 0
  | VNum n => n
  | VStr _ n => n
  | VObj => NaN
  | VArr [] => Fin 0
  | VArr [x] =>
      match x with
      | VUndefined | VNull => Fin 0
      | VBool _ | VObj => NaN
      | VNum n => n
      | VStr _ n => n
      | VArr _ => ToNumber x
      end
  | VArr (_ :: _ :: _) => NaN
  end.

(** Truthiness of a value, as tested by [!v]. *)
Definition truthy (v : value) : bool :=
  match v with
  | VUndefined | VNull => false
  | VBool b => b
  | VNum n => Num.truthy n
  | VStr s _ => negb (String.eqb s EmptyString)
  | VObj | VArr _ => true
  end.

(** ** Coordinate sanitizer *)

(** A [number[][]] whose entries are the pairs [[x, y]] the sanitizer builds. *)
Definition ring : Type := list coord.

(** The inner loop of [ensureNumericCoordinates]: [cleanRing] after
    [for (const point of ring)]. *)
Fixpoint cleanPoints (points : list value) : ring :=
  match points with
  | [] => []
  | point :: rest =>
      match point with
      | VArr (p0 :: p1 :: _) =>
          let x := ToNumber p0 in
          let y := ToNumber p1 in
          if Num.isNaN x || Num.isNaN y then cleanPoints rest
          else (x, y) :: cleanPoints rest
      | _ => cleanPoints rest
      end
  end.

(** The closing step on a cleaned ring: [Some] of the ring pushed to
    [result], [None] when nothing is pushed. *)
Definition closeRing (cleanRing : ring) : option ring :=
  if (3 <=? length cleanRing)%nat then
    let first := hd (NaN, NaN) cleanRing in
    let last := last cleanRing (NaN, NaN) in
    let cleanRing' :=
      if Num.strict_ne (fst first) (fst last) || Num.strict_ne (snd first) (snd last)
      then cleanRing ++ [(fst first, snd first)]
      else cleanRing in
    if (4 <=? length cleanRing')%nat then Some cleanRing' else None
  else None.

(** One iteration of the outer loop, on one candidate ring. *)
Definition sanitizeRing (candidate : value) : option ring :=
  match candidate with
  | VArr points => closeRing (cleanPoints points)
  | _ => None
  end.

(** [result] after the outer loop. *)
Fixpoint sanitizeRings (rings : list value) : list ring :=
  match rings with
  | [] => []
  | candidate :: rest =>
      match sanitizeRing candidate with
      | Some r => r :: sanitizeRings rest
      | None => sanitizeRings rest
      end
  end.

Definition ensureNumericCoordinates (coordinates : value) : option (list ring) :=
  match coordinates with
  | VArr rings =>
      let result := sanitizeRings rings in
      if (0 <? length result)%nat then Some result else None
  | _ => None
  end.

(** A sanitized ring list seen again as an untyped value. *)
Definition coord_value (c : coord) : value := VArr [VNum (fst c); VNum (snd c)].
Definition ring_value (r : ring) : value := VArr (map coord_value r).
Definition rings_value (rs : list ring) : value := VArr (map ring_value rs).

(** ** Polygon validation ([isValidPolygonCoordinates]) *)

(** [p1[0] === p2[0] && p1[1] === p2[1]] on two entries of a ring; an
    index that is not there reads [undefined], which is never [===] to a
    number and is [===] to itself. *)
Definition entry (p : value) (i : nat) : value :=
  match p with
  | VArr elems => nth i elems VUndefined
  | _ => VUndefined
  end.

Definition value_strict_eq (a b : value) : bool :=
  match a, b with
  | VNum x, VNum y => Num.strict_eq x y
  | VUndefined, VUndefined => true
  | _, _ => false
  end.

Definition arePointsEqual (p1 p2 : value) : bool :=
  value_strict_eq (entry p1 0) (entry p2 0) && value_strict_eq (entry p1 1) (entry p2 1).

Definition validPoint (point : value) : bool :=
  match point with
  | VArr (VNum a :: VNum b :: _) => negb (Num.isNaN a) && negb (Num.isNaN b)
  | _ => false
  end.

Definition validRing (candidate : value) : bool :=
  match candidate with
  | VArr points =>
      (4 <=? length points)%nat
      && forallb validPoint points
      && arePointsEqual (hd VUndefined points) (last points VUndefined)
  | _ => false
  end.

Definition isValidPolygonCoordinates (coordinates : value) : bool :=
  match coordinates with
  | VArr rings => negb (length rings =? 0)%nat && forallb validRing rings
  | _ => false
  end.

(** ** Data model ([models/types.ts]) *)

(** A point identifier as found in the payload: declared [number], used
    as a [Map] key of type [string | number]; the other JSON primitives
    and an absent field are kept because the code tests its truthiness. *)
Inductive ident : Type :=
| IdUndefined
| IdNull
| IdBool (b : bool)
| IdNum (n : number)
| IdStr (s : string).

Record Geometry : Type := mkGeometry {
  geometry_type : option string;     (* [None]: absent or not a string *)
  coordinates : value
}.

Record Region : Type := mkRegion {
  geometry : option Geometry;
  center : list number;
  radius : number
}.

Record Point : Type := mkPoint {
  point_id : ident;
  point_createdAt : string;
  region : option Region
}.

Record PointOnRoute : Type := mkPointOnRoute {
  point : option Point
}.

Record Route : Type := mkRoute {
  route_id : number;
  route_createdAt : string;
  pointsOnRoutes : option (list PointOnRoute)   (* [None]: not iterable *)
}.

(** The GeoJSON point feature built by [turf.point]; the code reads its
    [geometry.coordinates] only. *)
Record PointFeature : Type := mkPointFeature {
  feature_coordinates : coord
}.

(** Outcome of a call that may throw. *)
Inductive result (A : Type) : Type :=
| Ok (a : A)
| Throw (message : string).
Arguments Ok {A} a.
Arguments Throw {A} message.

(** ** Minimum distance to a polygon *)

(** The inner loop of [calculateMinimumDistanceManually] over the
    consecutive pairs [ring[i], ring[i + 1]]. *)
Fixpoint segmentsLoop (userCoords : coord) (r : ring) (minDistance : number) : number :=
  match r with
  | p1 :: ((p2 :: _) as rest) =>
      let distance := pointToLineDistance userCoords p1 p2 in
      segmentsLoop userCoords rest
        (if Num.lt distance minDistance then distance else minDistance)
  | _ => minDistance
  end.

Definition calculateMinimumDistanceManually
    (userPoint : PointFeature) (polygonCoordinates : list ring) : number :=
  let userCoords := feature_coordinates userPoint in
  fold_left (fun minDistance r => segmentsLoop userCoords r minDistance)
            polygonCoordinates PInf.

(** [region?.geometry?.coordinates]; [None] is [undefined]. *)
Definition region_coordinates (r : option Region) : option value :=
  match r with
  | Some reg =>
      match geometry reg with
      | Some g => Some (coordinates g)
      | None => None
      end
  | None => None
  end.

(** [region?.geometry?.type === 'Polygon']. *)
Definition region_is_polygon (r : option Region) : bool :=
  match r with
  | Some reg =>
      match geometry reg with
      | Some g =>
          match geometry_type g with
          | Some t => String.eqb t "Polygon"
          | None => false
          end
      | None => false
      end
  | None => false
  end.

(** ** JavaScript [Map] keyed by point identifier, in insertion order *)

(** Key equality of [Map] (SameValueZero): [NaN] equals itself. *)
Definition sameValueZero (a b : ident) : bool :=
  match a, b with
  | IdUndefined, IdUndefined => true
  | IdNull, IdNull => true
  | IdBool x, IdBool y => Bool.eqb x y
  | IdNum NaN, IdNum NaN => true
  | IdNum x, IdNum y => Num.strict_eq x y
  | IdStr x, IdStr y => String.eqb x y
  | _, _ => false
  end.

(** [if (point.id)]. *)
Definition ident_truthy (i : ident) : bool :=
  match i with
  | IdUndefined | IdNull => false
  | IdBool b => b
  | IdNum n => Num.truthy n
  | IdStr s => negb (String.eqb s EmptyString)
  end.

Definition PointMap : Type := list (ident * Point).

Fixpoint map_has (m : PointMap) (k : ident) : bool :=
  match m with
  | [] => false
  | (k', _) :: rest => sameValueZero k' k || map_has rest k
  end.

Fixpoint map_set (m : PointMap) (k : ident) (v : Point) : PointMap :=
  match m with
  | [] => [(k, v)]
  | (k', v') :: rest =>
      if sameValueZero k' k then (k', v) :: rest
      else (k', v') :: map_set rest k v
  end.

Definition map_values (m : PointMap) : list Point := map snd m.

(** ** [Array.prototype.sort] and [Array.prototype.slice] *)

Section ArraySort.

Context {A : Type}.
Variable comparefn : A -> A -> number.

(** The comparison the sort performs: a [NaN] answer counts as 0. *)
Definition SortCompare (x y : A) : number :=
  let v := comparefn x y in
  if Num.isNaN v then Fin 0 else v.

(** The language requires a stable sort; it is modelled by insertion,
    an element staying in front of the later ones it does not exceed. *)
Fixpoint sort_insert (x : A) (sorted : list A) : list A :=
  match sorted with
  | [] => [x]
  | y :: rest =>
      if Num.gt (SortCompare x y) (Fin 0) then y :: sort_insert x rest
      else x :: y :: rest
  end.

Fixpoint array_sort (items : list A) : list A :=
  match items with
  | [] => []
  | x :: rest => sort_insert x (array_sort rest)
  end.

(** [items.slice(0, end)] for an integer [end]. *)
Definition slice_from_0 (items : list A) (end_ : Z) : list A :=
  let len := Z.of_nat (length items) in
  let final := if (end_ <? 0)%Z then Z.max (len + end_) 0 else Z.min end_ len in
  firstn (Z.to_nat final) items.

End ArraySort.

(** ** The geometric queries ([GeoService]) *)

Section GeoService.

(** [@turf/turf]: polygon features and the predicates on them.  A
    result [None] stands for a thrown exception.  [turf.bboxPolygon] is
    taken where it returns, on corners none of which is [NaN]; on a
    [NaN] corner the library throws, which this parameter does not
    show, so a statement about what the viewport query returns at given
    corners assumes them free of [NaN]. *)
Variable Poly : Type.
Variable turf_point : coord -> option PointFeature.
Variable turf_polygon : value -> option Poly.
Variable turf_booleanPointInPolygon : PointFeature -> Poly -> option bool.
Variable turf_bboxPolygon : number * number * number * number -> Poly.
Variable turf_booleanIntersects : Poly -> Poly -> option bool.

(** State of the loop of [calculateDistanceToRoute] after one
    iteration: go on with a running minimum, or return. *)
Inductive loop : Type :=
| Continue (minDistance : number)
| Return (v : number).

(** The body of [for (const pointOnRoute of route.pointsOnRoutes)]. *)
Definition visitPointOnRoute
    (userPoint : PointFeature) (minDistance : number) (pointOnRoute : PointOnRoute) : loop :=
  match point pointOnRoute with
  | None => Continue minDistance            (* [point.region] throws, caught *)
  | Some pt =>
      match region_coordinates (region pt) with
      | None => Continue minDistance
      | Some coords =>
          if negb (truthy coords) then Continue minDistance
          else
            match ensureNumericCoordinates coords with
            | None => Continue minDistance
            | Some cleanCoordinates =>
                match turf_polygon (rings_value cleanCoordinates) with
                | None => Continue minDistance          (* caught *)
                | Some polygon =>
                    match turf_booleanPointInPolygon userPoint polygon with
                    | None => Continue minDistance      (* caught *)
                    | Some true => Return (Fin 0)
                    | Some false =>
                        let distance :=
                          calculateMinimumDistanceManually userPoint cleanCoordinates in
                        if Num.lt distance minDistance then Continue distance
                        else Continue minDistance
                    end
                end
            end
      end
  end.

Fixpoint distanceLoop
    (userPoint : PointFeature) (pointsOnRoute : list PointOnRoute) (minDistance : number)
  : number :=
  match pointsOnRoute with
  | [] => minDistance
  | pointOnRoute :: rest =>
      match visitPointOnRoute userPoint minDistance pointOnRoute with
      | Return v => v
      | Continue minDistance' => distanceLoop userPoint rest minDistance'
      end
  end.

Definition calculateDistanceToRoute (route : Route) (userPoint : PointFeature)
  : result number :=
  match pointsOnRoutes route with
  | None => Throw "TypeError: route.pointsOnRoutes is not iterable"
  | Some pointsOnRoute => Ok (distanceLoop userPoint pointsOnRoute PInf)
  end.

(** The pair built for each route by [routes.map]. *)
Definition withDistance (userPoint : PointFeature) (route : Route) : Route * number :=
  match calculateDistanceToRoute route userPoint with
  | Ok distance => (route, distance)
  | Throw _ => (route, PInf)
  end.

Definition findNearestRoutes (routes : list Route) (lng lat : number) (count : Z)
  : result (list Route) :=
  match turf_point (lng, lat) with
  | None => Throw "turf.point"
  | Some userPoint =>
      let routesWithDistance := map (withDistance userPoint) routes in
      let sorted :=
        array_sort (fun a b => Num.sub (snd a) (snd b)) routesWithDistance in
      Ok (map fst (slice_from_0 sorted count))
  end.

Definition isPointInViewport (pt : Point) (bboxPolygon : Poly) : bool :=
  match region_coordinates (region pt) with
  | Some coords =>
      if region_is_polygon (region pt) && isValidPolygonCoordinates coords then
        match turf_polygon coords with
        | Some polygon =>
            match turf_booleanIntersects polygon bboxPolygon with
            | Some b => b
            | None => false                 (* caught *)
            end
        | None => false                     (* caught *)
        end
      else false
  | None => false
  end.

(** The body of [route.pointsOnRoutes.forEach]. *)
Definition visitViewportPoint
    (bboxPolygon : Poly) (uniquePointsMap : PointMap) (pointOnRoute : PointOnRoute)
  : PointMap :=
  match point pointOnRoute with
  | None => uniquePointsMap                 (* [point.id] throws, caught *)
  | Some pt =>
      if ident_truthy (point_id pt) && map_has uniquePointsMap (point_id pt)
      then uniquePointsMap
      else if isPointInViewport pt bboxPolygon then
        if ident_truthy (point_id pt)
        then map_set uniquePointsMap (point_id pt) pt
        else uniquePointsMap
      else uniquePointsMap
  end.

(** [routes.forEach]: a route whose [pointsOnRoutes] has no [forEach]
    throws outside the inner [try]. *)
Fixpoint viewportLoop
    (bboxPolygon : Poly) (routes : list Route) (uniquePointsMap : PointMap)
  : result PointMap :=
  match routes with
  | [] => Ok uniquePointsMap
  | route :: rest =>
      match pointsOnRoutes route with
      | None => Throw "TypeError: route.pointsOnRoutes.forEach"
      | Some pointsOnRoute =>
          viewportLoop bboxPolygon rest
            (fold_left (visitViewportPoint bboxPolygon) pointsOnRoute uniquePointsMap)
      end
  end.

Definition findPointsInViewport
    (routes : list Route) (lng1 lat1 lng2 lat2 : number) : result (list Point) :=
  let bbox :=
    (Num.min lng1 lng2, Num.min lat1 lat2, Num.max lng1 lng2, Num.max lat1 lat2) in
  let bboxPolygon := turf_bboxPolygon bbox in
  match viewportLoop bboxPolygon routes [] with
  | Ok uniquePointsMap => Ok (map_values uniquePointsMap)
  | Throw e => Throw e
  end.

End GeoService.

(** ** The dataset cache ([DataService]) *)

Module DataService.

Record t : Type := mk {
  cachedData : option (list Route);
  lastFetchTime : Z
}.

Definition CACHE_TTL : Z := 1000 * 60 * 10.

(** The instance built by [getInstance] on first use. *)
Definition initial : t := {| cachedData := None; lastFetchTime := 0 |}.

(** A computation that either is done or performs the HTTP request
    and goes on with its outcome ([None]: the request failed). *)
Inductive io (A : Type) : Type :=
| Done (a : A)
| AxiosGet (k : option (list Route) -> A).
Arguments Done {A} a.
Arguments AxiosGet {A} k.

(** [getRoutes], with [currentTime] the value of [Date.now()]; the
    answer comes with the state of the instance after the call. *)
Definition getRoutes (this : t) (currentTime : Z) : io (result (list Route) * t) :=
  let fresh :=
    match cachedData this with
    | Some _ => (currentTime - lastFetchTime this <? CACHE_TTL)%Z
    | None => false
    end in
  match cachedData this, fresh with
  | Some data, true => Done (Ok data, this)
  | _, _ =>
      AxiosGet (fun response =>
        match response with
        | Some data' =>
            (Ok data', {| cachedData := Some data'; lastFetchTime := currentTime |})
        | None =>
            match cachedData this with
            | Some data => (Ok data, this)
            | None =>
                (Throw "Unable to fetch data and no cached data available.", this)
            end
        end)
  end.

(** Running a computation against a given outcome of the request. *)
Definition run {A : Type} (c : io A) (response : option (list Route)) : A :=
  match c with
  | Done a => a
  | AxiosGet k => k response
  end.

(** Whether the computation performs the request. *)
Definition fetches {A : Type} (c : io A) : bool :=
  match c with
  | Done _ => false
  | AxiosGet _ => true
  end.

End DataService.

(** ** Notions used to state the properties of the sanitizer *)

(** The candidate rings of a raw input: the elements of the outer array. *)
Definition candidates (coordinates : value) : list value :=
  match coordinates with
  | VArr rings => rings
  | _ => []
  end.

(** The usable points of a candidate ring, as the sanitizer collects them. *)
Definition usablePoints (candidate : value) : ring :=
  match candidate with
  | VArr points => cleanPoints points
  | _ => []
  end.

(** A ring that has three pairwise different points. *)
Definition three_distinct (r : ring) : Prop :=
  exists a b c, In a r /\ In b r /\ In c r /\ a <> b /\ a <> c /\ b <> c.

(** Usable points too few to make a closed ring of 4: fewer than 3, or
    exactly 3 of which the last repeats the first. *)
Definition too_short (r : ring) : Prop :=
  (length r < 3)%nat
  \/ (length r = 3%nat /\ hd (NaN, NaN) r = last r (NaN, NaN)).

(** A point both of whose coordinates are numbers other than [NaN]. *)
Definition numeric_point (c : coord) : Prop :=
  Num.isNaN (fst c) = false /\ Num.isNaN (snd c) = false.

(** A ring whose first point is also its last. *)
Definition closed_ring (r : ring) : Prop :=
  exists c middle, r = c :: middle ++ [c].

(** A ring that is closed, numeric and of length at least 4. *)
Definition valid_ring (r : ring) : Prop :=
  (4 <= length r)%nat /\ closed_ring r /\ Forall numeric_point r.

(** The unit square of the specification's scenarios. *)
Definition unit_square : ring :=
  [(Fin 0, Fin 0); (Fin 0, Fin 1); (Fin 1, Fin 1); (Fin 1, Fin 0); (Fin 0, Fin 0)].

(** ** Notions used to state the properties of the queries *)

(** What the viewport loop maintains about its map: the keys are
    pairwise different, and each point is stored under its own truthy
    identifier. *)
Definition map_ok (m : PointMap) : Prop :=
  NoDup (map fst m)
  /\ Forall (fun kv => fst kv = point_id (snd kv)
                       /\ ident_truthy (point_id (snd kv)) = true) m.

(** One step of a running minimum: [if (d < m) m = d]. *)
Definition min_step (m d : number) : number := if Num.lt d m then d else m.

(** [m] is the least of the distances [l], or [+Infinity] when none is
    below it.  A [NaN] distance compares with nothing and is passed
    over. *)
Definition minimum_of (m : number) (l : list number) : Prop :=
  Num.isNaN m = false
  /\ (forall d, In d l -> Num.lt d m = false)
  /\ (m = PInf \/ In m l).

(** The edges of a ring: its consecutive pairs of points. *)
Fixpoint edges (r : ring) : list (coord * coord) :=
  match r with
  | p1 :: ((p2 :: _) as rest) => (p1, p2) :: edges rest
  | _ => []
  end.

(** The distances from a point to every edge of every ring. *)
Definition edge_distances (userCoords : coord) (rings : list ring) : list number :=
  flat_map
    (fun r => map (fun e => pointToLineDistance userCoords (fst e) (snd e)) (edges r))
    rings.

(** How a region on a route stands to the query point: unusable
    (absent, not sanitizable, no polygon built from it, or no answer
    from the containment test), containing the point, or usable with
    the point outside of its sanitized rings. *)
Inductive standing : Type :=
| Unusable
| Inside
| Outside (rings : list ring).

Section DistanceNotions.

Variable Poly : Type.
Variable turf_polygon : value -> option Poly.
Variable turf_booleanPointInPolygon : PointFeature -> Poly -> option bool.

Definition region_standing (userPoint : PointFeature) (pointOnRoute : PointOnRoute)
  : standing :=
  match point pointOnRoute with
  | None => Unusable
  | Some pt =>
      match region_coordinates (region pt) with
      | None => Unusable
      | Some coords =>
          match ensureNumericCoordinates coords with
          | None => Unusable
          | Some rings =>
              match turf_polygon (rings_value rings) with
              | None => Unusable
              | Some polygon =>
                  match turf_booleanPointInPolygon userPoint polygon with
                  | None => Unusable
                  | Some true => Inside
                  | Some false => Outside rings
                  end
              end
          end
      end
  end.

Definition usable (userPoint : PointFeature) (pointOnRoute : PointOnRoute) : bool :=
  match region_standing userPoint pointOnRoute with
  | Unusable => false
  | _ => true
  end.

(** The distances from the query point to every edge of every
    sanitized ring of every usable region on the route. *)
Definition route_distances (userPoint : PointFeature) (pointsOnRoute : list PointOnRoute)
  : list number :=
  flat_map
    (fun pointOnRoute =>
       match region_standing userPoint pointOnRoute with
       | Outside rings => edge_distances (feature_coordinates userPoint) rings
       | _ => []
       end)
    pointsOnRoute.

(** The distance [findNearestRoutes] ranks a route by. *)
Definition ranking_distance
    (userPoint : PointFeature) (route : Route) : number :=
  snd (withDistance Poly turf_polygon turf_booleanPointInPolygon userPoint route).

End DistanceNotions.

(** ** Sample data for the examples *)

(** A stand-in for the external library in the examples: a polygon
    feature is its coordinates, the point feature is built for every
    pair, the query point is in no polygon, and every polygon meets
    the viewport. *)
Definition sample_point_feature (c : coord) : option PointFeature :=
  Some (mkPointFeature c).
Definition sample_polygon (coords : value) : option value := Some coords.
Definition sample_outside (p : PointFeature) (polygon : value) : option bool := Some false.
Definition sample_bboxPolygon (bbox : number * number * number * number) : value :=
  let '(minLng, minLat, maxLng, maxLat) := bbox in
  rings_value [[(minLng, minLat); (maxLng, minLat); (maxLng, maxLat);
                (minLng, maxLat); (minLng, minLat)]].
Definition sample_intersects (polygon bboxPolygon : value) : option bool := Some true.

(** A point whose region is the unit square, and a route through the
    points of the given identifiers. *)
Definition square_region : Region :=
  mkRegion (Some (mkGeometry (Some "Polygon"%string) (rings_value [unit_square])))
           [Fin 0.5; Fin 0.5] (Fin 1).

Definition square_point (i : ident) : Point :=
  mkPoint i "2025-01-01T00:00:00Z" (Some square_region).

Definition square_route (ids : list ident) : Route :=
  mkRoute (Fin 1) "2025-01-01T00:00:00Z"
          (Some (map (fun i => mkPointOnRoute (Some (square_point i))) ids)).

(** A route whose [pointsOnRoutes] is missing, and a route whose first
    reference has no point. *)
Definition broken_route : Route :=
  mkRoute (Fin 3) "2025-01-01T00:00:00Z" None.

Definition patchy_route : Route :=
  mkRoute (Fin 2) "2025-01-01T00:00:00Z"
          (Some [mkPointOnRoute None; mkPointOnRoute (Some (square_point (IdNum (Fin 7))))]).

(** ** Notions used to state further properties *)

(** The elements of an array value; nothing for any other value. *)
Definition elements (v : value) : list value :=
  match v with
  | VArr elems => elems
  | _ => []
  end.

(** The pair [[Number(p[0]), Number(p[1])]] read in a point. *)
Definition point_pair (p : value) : coord :=
  (ToNumber (entry p 0), ToNumber (entry p 1)).

(** A number that is neither [NaN] nor an infinity. *)
Definition is_finite (a : number) : bool :=
  match a with
  | Fin _ => true
  | _ => false
  end.

(** A coordinate of moderate size: at most [1e307] in absolute value.
    The largest double is about [1.8e308]; on moderate coordinates the
    differences [x2 - x1] and the product [degrees * PI] of the distance
    code stay below it, so that they are finite in the source as they
    are here. *)
Definition moderate (x : R) : Prop := (-1e307 <= x <= 1e307)%R.

(** A finite distance on the sphere: between 0 and [6371 * PI]. *)
Definition bounded_distance (a : number) : Prop :=
  exists d, a = Fin d /\ (0 <= d <= 6371 * Rtrigo1.PI)%R.

(** What a minimum of distances can be: [+Infinity] (no distance at
    all) or a bounded distance. *)
Definition distance_value (m : number) : Prop :=
  m = PInf \/ bounded_distance m.

(** The points a route refers to, and those of a dataset, in the order
    the loops meet them. *)
Definition route_points (route : Route) : list Point :=
  match pointsOnRoutes route with
  | Some pointsOnRoute =>
      flat_map (fun pointOnRoute =>
                  match point pointOnRoute with
                  | Some pt => [pt]
                  | None => []
                  end)
               pointsOnRoute
  | None => []
  end.

Definition referenced_points (routes : list Route) : list Point :=
  flat_map route_points routes.

(** The points of a list whose identifier was not met before, [seen]
    being the identifiers met so far. *)
Fixpoint first_by_id (seen : list ident) (points : list Point) : list Point :=
  match points with
  | [] => []
  | pt :: rest =>
      if existsb (fun k => sameValueZero k (point_id pt)) seen
      then first_by_id seen rest
      else pt :: first_by_id (seen ++ [point_id pt]) rest
  end.

(** The bounding box of two corners, as [findPointsInViewport] builds it. *)
Definition corners_bbox (lng1 lat1 lng2 lat2 : number)
  : number * number * number * number :=
  (Num.min lng1 lng2, Num.min lat1 lat2, Num.max lng1 lng2, Num.max lat1 lat2).

Section ViewportNotions.

Variable Poly : Type.
Variable turf_polygon : value -> option Poly.
Variable turf_booleanIntersects : Poly -> Poly -> option bool.

(** A point the viewport query wants: its identifier is truthy and its
    region is a valid polygon that meets the viewport. *)
Definition wanted (bboxPolygon : Poly) (pt : Point) : bool :=
  ident_truthy (point_id pt)
  && isPointInViewport Poly turf_polygon turf_booleanIntersects pt bboxPolygon.

End ViewportNotions.

(** ** A sequence of calls to the cache *)

(** The answers of [getRoutes] to a sequence of calls, each given by
    the time of the call and the outcome the HTTP request has if the
    call makes it, with the state of the instance at the end. *)
Fixpoint getRoutes_sequence
    (this : DataService.t) (calls : list (Z * option (list Route)))
  : list (result (list Route)) * DataService.t :=
  match calls with
  | [] => ([], this)
  | (currentTime, response) :: rest =>
      let '(answer, this') :=
        DataService.run (DataService.getRoutes this currentTime) response in
      let '(answers, final) := getRoutes_sequence this' rest in
      (answer :: answers, final)
  end.

Definition is_Ok {A : Type} (r : result A) : bool :=
  match r with
  | Ok _ => true
  | Throw _ => false
  end.

(** ** The public methods with their dataset, and the HTTP handlers *)

(** What a computation does with its result once it is there. *)
Definition io_map {A B : Type} (f : A -> B) (c : DataService.io A) : DataService.io B :=
  match c with
  | DataService.Done a => DataService.Done (f a)
  | DataService.AxiosGet k => DataService.AxiosGet (fun response => f (k response))
  end.

(** The body of a response. *)
Inductive Body : Type :=
| ErrorBody (error : string)
| RoutesBody (routes : list Route)
| PointsBody (points : list Point).

Record Response : Type := mkResponse {
  status : Z;
  body : Body
}.

(** The query of [/api/findNearestRoutes] after the conversions of the
    handler: [lng] and [lat] are what [parseFloat] reads, and [count] is
    [None] when the parameter is absent or empty, [Some None] when
    [parseInt] reads [NaN] in it, [Some (Some n)] when it reads [n]. *)
Record NearestQuery : Type := mkNearestQuery {
  query_lng : number;
  query_lat : number;
  query_count : option (option Z)
}.

(** The query of [/api/findPointsInViewport], as [parseFloat] reads it. *)
Record ViewportQuery : Type := mkViewportQuery {
  query_lng1 : number;
  query_lat1 : number;
  query_lng2 : number;
  query_lat2 : number
}.

Section Handlers.

Variable Poly : Type.
Variable turf_point : coord -> option PointFeature.
Variable turf_polygon : value -> option Poly.
Variable turf_booleanPointInPolygon : PointFeature -> Poly -> option bool.
Variable turf_bboxPolygon : number * number * number * number -> Poly.
Variable turf_booleanIntersects : Poly -> Poly -> option bool.

(** [GeoService.findNearestRoutes] from its first line: the dataset is
    asked from the cache, and an error of the cache is thrown again. *)
Definition GeoService_findNearestRoutes
    (this : DataService.t) (currentTime : Z) (lng lat : number) (count : Z)
  : DataService.io (result (list Route) * DataService.t) :=
  io_map
    (fun '(answer, this') =>
       match answer with
       | Ok routes =>
           (findNearestRoutes Poly turf_point turf_polygon turf_booleanPointInPolygon
              routes lng lat count, this')
       | Throw e => (Throw e, this')
       end)
    (DataService.getRoutes this currentTime).

(** [GeoService.findPointsInViewport] from its first line. *)
Definition GeoService_findPointsInViewport
    (this : DataService.t) (currentTime : Z) (lng1 lat1 lng2 lat2 : number)
  : DataService.io (result (list Point) * DataService.t) :=
  io_map
    (fun '(answer, this') =>
       match answer with
       | Ok routes =>
           (findPointsInViewport Poly turf_polygon turf_bboxPolygon turf_booleanIntersects
              routes lng1 lat1 lng2 lat2, this')
       | Throw e => (Throw e, this')
       end)
    (DataService.getRoutes this currentTime).

(** [RouteController.findNearestRoutes]. *)
Definition RouteController_findNearestRoutes
    (this : DataService.t) (currentTime : Z) (query : NearestQuery)
  : DataService.io (Response * DataService.t) :=
  let lng := query_lng query in
  let lat := query_lat query in
  let count :=
    match query_count query with
    | Some parsed => parsed
    | None => Some 10%Z
    end in
  if Num.isNaN lng || Num.isNaN lat then
    DataService.Done
      (mkResponse 400 (ErrorBody "Incorrect latitude and longitude parameters"), this)
  else
    match count with
    | None =>
        DataService.Done (mkResponse 400 (ErrorBody "Invalid counting parameter"), this)
    | Some n =>
        if (n <=? 0)%Z then
          DataService.Done (mkResponse 400 (ErrorBody "Invalid counting parameter"), this)
        else
          io_map
            (fun '(answer, this') =>
               match answer with
               | Ok routes => (mkResponse 200 (RoutesBody routes), this')
               | Throw _ =>
                   (mkResponse 500 (ErrorBody "Error while finding nearest routes."), this')
               end)
            (GeoService_findNearestRoutes this currentTime lng lat n)
    end.

(** [RouteController.findPointsInViewport]. *)
Definition RouteController_findPointsInViewport
    (this : DataService.t) (currentTime : Z) (query : ViewportQuery)
  : DataService.io (Response * DataService.t) :=
  let lng1 := query_lng1 query in
  let lat1 := query_lat1 query in
  let lng2 := query_lng2 query in
  let lat2 := query_lat2 query in
  if Num.isNaN lng1 || Num.isNaN lat1 || Num.isNaN lng2 || Num.isNaN lat2 then
    DataService.Done (mkResponse 400 (ErrorBody "Invalid viewport parameters."), this)
  else
    io_map
      (fun '(answer, this') =>
         match answer with
         | Ok points => (mkResponse 200 (PointsBody points), this')
         | Throw _ =>
             (mkResponse 500 (ErrorBody "Error in finding point in viewport."), this')
         end)
      (GeoService_findPointsInViewport this currentTime lng1 lat1 lng2 lat2).

End Handlers.

(** The count a query asks for (10 when the parameter is absent), and
    the queries the handlers refuse. *)
Definition requested_count (query : NearestQuery) : Z :=
  match query_count query with
  | Some (Some n) => n
  | _ => 10%Z
  end.

Definition nearest_query_refused (query : NearestQuery) : bool :=
  Num.isNaN (query_lng query) || Num.isNaN (query_lat query)
  || match query_count query with
     | Some None => true
     | Some (Some n) => (n <=? 0)%Z
     | None => false
     end.

Definition viewport_query_refused (query : ViewportQuery) : bool :=
  Num.isNaN (query_lng1 query) || Num.isNaN (query_lat1 query)
  || Num.isNaN (query_lng2 query) || Num.isNaN (query_lat2 query).


(** * Properties *)

(** ** Arithmetic of JavaScript numbers *)

Module NumFacts.

Local Open Scope R_scope.

(** Decides the real comparisons left in a goal, one after the other. *)
Ltac decide_reals :=
  repeat match goal with
         | |- context [Rlt_dec ?x ?y] => destruct (Rlt_dec x y)
         | |- context [Req_dec_T ?x ?y] => destruct (Req_dec_T x y)
         end;
  try reflexivity; try lra; try (exfalso; lra).

Ltac num_crush :=
  cbn; unfold Num.inf_of_sign, Num.Reqb, Num.Rltb; cbn; decide_reals.

Lemma neg_involutive (a : number) : Num.neg (Num.neg a) = a.
Proof. destruct a; cbn; try reflexivity. f_equal; lra. Qed.

Lemma inf_of_sign_opp (x : R) :
  Num.inf_of_sign (- x) = Num.neg (Num.inf_of_sign x).
Proof. unfold Num.inf_of_sign; decide_reals. Qed.

Lemma sub_antisym (a b : number) : Num.sub a b = Num.neg (Num.sub b a).
Proof. destruct a, b; cbn; try reflexivity. f_equal; lra. Qed.

Lemma mul_comm (a b : number) : Num.mul a b = Num.mul b a.
Proof. destruct a, b; cbn; try reflexivity. f_equal; lra. Qed.

Lemma mul_neg_l (a b : number) : Num.mul (Num.neg a) b = Num.neg (Num.mul a b).
Proof.
  destruct a, b; cbn; try reflexivity;
    rewrite ?inf_of_sign_opp, ?neg_involutive; try reflexivity.
  f_equal; lra.
Qed.

Lemma mul_neg_r (a b : number) : Num.mul a (Num.neg b) = Num.neg (Num.mul a b).
Proof. now rewrite mul_comm, mul_neg_l, mul_comm. Qed.

Lemma mul_neg_neg (a b : number) : Num.mul (Num.neg a) (Num.neg b) = Num.mul a b.
Proof. now rewrite mul_neg_l, mul_neg_r, neg_involutive. Qed.

Lemma div_neg_l (a : number) (y : R) :
  0 < y -> Num.div (Num.neg a) (Fin y) = Num.neg (Num.div a (Fin y)).
Proof.
  intros Hy. destruct a; cbn; try reflexivity.
  - destruct (Rlt_dec y 0); [lra | reflexivity].
  - destruct (Rlt_dec y 0); [lra | reflexivity].
  - destruct (Req_dec_T y 0); [lra |]. cbn. f_equal. field. lra.
Qed.

Lemma sin_neg (a : number) : Num.sin (Num.neg a) = Num.neg (Num.sin a).
Proof. destruct a; cbn; try reflexivity. now rewrite Rtrigo1.sin_neg. Qed.

Lemma div_Fin (x y : R) : y <> 0 -> Num.div (Fin x) (Fin y) = Fin (x / y).
Proof. intros Hy. cbn. destruct (Req_dec_T y 0); [contradiction | reflexivity]. Qed.

Lemma strict_eq_refl (a : number) : Num.isNaN a = false -> Num.strict_eq a a = true.
Proof.
  destruct a; cbn; try reflexivity; try discriminate.
  intros _. unfold Num.Reqb. destruct (Req_dec_T r r); [reflexivity | contradiction].
Qed.

Lemma strict_eq_true (a b : number) :
  Num.strict_eq a b = true <-> a = b /\ Num.isNaN a = false.
Proof.
  destruct a, b; cbn; unfold Num.Reqb; try (split; [discriminate | intros [E _]; discriminate E]);
    try (split; [now intros _ | reflexivity]); try (split; [discriminate | intros [_ E]; discriminate E]).
  destruct (Req_dec_T r r0); split; try discriminate; try (intros _; subst; now split).
  intros [E _]. injection E as E. contradiction.
Qed.

Lemma strict_eq_NaN_l (b : number) : Num.strict_eq NaN b = false.
Proof. reflexivity. Qed.

Lemma strict_eq_NaN_r (a : number) : Num.strict_eq a NaN = false.
Proof. now destruct a. Qed.

(** [<] is a strict order that no [NaN] takes part in. *)
Lemma lt_irrefl (a : number) : Num.lt a a = false.
Proof.
  destruct a; cbn; try reflexivity.
  unfold Num.Rltb. destruct (Rlt_dec r r); [lra | reflexivity].
Qed.

Lemma lt_trans (a b c : number) :
  Num.lt a b = true -> Num.lt b c = true -> Num.lt a c = true.
Proof.
  destruct a, b, c; cbn; unfold Num.Rltb; try discriminate; try reflexivity.
  destruct (Rlt_dec r r0), (Rlt_dec r0 r1), (Rlt_dec r r1);
    try discriminate; try reflexivity; lra.
Qed.

Lemma lt_asym (a b : number) : Num.lt a b = true -> Num.lt b a = false.
Proof.
  intros H. destruct (Num.lt b a) eqn:E; [| reflexivity].
  pose proof (lt_trans _ _ _ H E) as F. now rewrite lt_irrefl in F.
Qed.

Lemma lt_total (a b : number) :
  Num.isNaN a = false -> Num.isNaN b = false ->
  Num.lt a b = true \/ a = b \/ Num.lt b a = true.
Proof.
  destruct a, b; cbn; unfold Num.Rltb; try discriminate; intros _ _; auto.
  destruct (Rlt_dec r r0); [now left |].
  destruct (Rlt_dec r0 r); [now right; right |].
  right; left. f_equal. lra.
Qed.

(** Negative transitivity: nothing below [b] that is not below [c]
    when [b] is not above [c]. *)
Lemma lt_false_trans (a b c : number) :
  Num.isNaN b = false ->
  Num.lt a b = false -> Num.lt b c = false -> Num.lt a c = false.
Proof.
  destruct a, b, c; cbn; unfold Num.Rltb; try discriminate; try reflexivity.
  intros _.
  destruct (Rlt_dec r r0), (Rlt_dec r0 r1), (Rlt_dec r r1);
    try discriminate; try reflexivity; lra.
Qed.

Lemma lt_NaN_l (b : number) : Num.lt NaN b = false.
Proof. reflexivity. Qed.

Lemma lt_NaN_r (a : number) : Num.lt a NaN = false.
Proof. now destruct a. Qed.

Lemma lt_PInf_l (b : number) : Num.lt PInf b = false.
Proof. now destruct b. Qed.

Lemma min_comm (a b : number) : Num.min a b = Num.min b a.
Proof.
  destruct a, b; cbn; unfold Num.Rltb; try reflexivity.
  destruct (Rlt_dec r0 r), (Rlt_dec r r0); try reflexivity; try lra.
  f_equal; lra.
Qed.

Lemma max_comm (a b : number) : Num.max a b = Num.max b a.
Proof.
  destruct a, b; cbn; unfold Num.Rltb; try reflexivity.
  destruct (Rlt_dec r0 r), (Rlt_dec r r0); try reflexivity; try lra.
  f_equal; lra.
Qed.

End NumFacts.

(** ** Distance primitives *)

Section Haversine.

Local Open Scope R_scope.

Lemma add_NaN_r (a : number) : Num.add a NaN = NaN.
Proof. now destruct a. Qed.

Lemma mul_NaN_r (a : number) : Num.mul a NaN = NaN.
Proof. now destruct a. Qed.

Lemma sub_NaN_r (a : number) : Num.sub a NaN = NaN.
Proof. now destruct a. Qed.

Lemma div_NaN_r (a : number) : Num.div a NaN = NaN.
Proof. now destruct a. Qed.

Lemma toRadians_NaN : toRadians NaN = NaN.
Proof. reflexivity. Qed.

Lemma toRadians_Fin (d : R) : toRadians (Fin d) = Fin (d * Rtrigo1.PI / 180).
Proof. unfold toRadians. cbn -[Num.div]. apply NumFacts.div_Fin. lra. Qed.

Lemma toRadians_neg (d : number) : toRadians (Num.neg d) = Num.neg (toRadians d).
Proof.
  unfold toRadians. rewrite NumFacts.mul_neg_l. apply NumFacts.div_neg_l. lra.
Qed.

(** A [NaN] in the second point makes the distance [NaN]. *)
Lemma haversine_NaN_lon (p : coord) (lat2 : number) :
  haversineDistance p (NaN, lat2) = NaN.
Proof.
  destruct p as [lon1 lat1]. unfold haversineDistance.
  rewrite (NumFacts.sub_antisym NaN lon1), sub_NaN_r. cbn [Num.neg].
  rewrite toRadians_NaN. cbn [Num.div Num.sin].
  now rewrite !mul_NaN_r, add_NaN_r.
Qed.

Lemma haversine_NaN_lat (p : coord) (lon2 : number) :
  haversineDistance p (lon2, NaN) = NaN.
Proof.
  destruct p as [lon1 lat1]. unfold haversineDistance.
  rewrite (NumFacts.sub_antisym NaN lat1), sub_NaN_r. cbn [Num.neg].
  rewrite toRadians_NaN. cbn [Num.div Num.sin Num.mul Num.add].
  reflexivity.
Qed.

(** The sine of the half angle changes sign with the angle. *)
Lemma sin_half_neg (d : number) :
  Num.sin (Num.div (toRadians (Num.neg d)) (Fin 2))
  = Num.neg (Num.sin (Num.div (toRadians d) (Fin 2))).
Proof.
  rewrite toRadians_neg, NumFacts.div_neg_l by lra.
  apply NumFacts.sin_neg.
Qed.

End Haversine.

Section HaversineClaims.

Local Open Scope R_scope.

(** When the haversine term [a] is 0, so is the distance. *)
Lemma distance_of_zero_haversine :
  Num.mul (Fin 6371)
    (Num.mul (Fin 2)
       (Num.atan2 (Num.sqrt (Fin 0)) (Num.sqrt (Num.sub (Fin 1) (Fin 0)))))
  = Fin 0.
Proof.
  cbn [Num.sub]. replace (1 - 0) with 1 by lra. unfold Num.sqrt.
  destruct (Rlt_dec 0 0); [lra |]. destruct (Rlt_dec 1 0); [lra |].
  rewrite sqrt_0, sqrt_1. unfold Num.atan2.
  destruct (Rlt_dec 0 1); [| lra].
  replace (0 / 1) with 0 by lra. rewrite atan_0. cbn. f_equal. lra.
Qed.

End HaversineClaims.

Section DistanceClaims.

Local Open Scope R_scope.

(** C9.  For every point [p] and every segment endpoint [s],
    [pointToLineDistance p s s] is [haversineDistance p s]: a segment
    of length zero reduces to the distance to its endpoint.  (When a
    coordinate of [s] is [NaN] the equality test fails and the
    projection path is taken; both sides are then [NaN].) *)
Theorem pointToLineDistance_degenerate (p s : coord) :
  pointToLineDistance p s s = haversineDistance p s.
Proof.
  destruct p as [x y], s as [x1 y1]. unfold pointToLineDistance.
  destruct (Num.isNaN x1) eqn:Hx; [| destruct (Num.isNaN y1) eqn:Hy].
  - destruct x1; try discriminate. cbn [Num.strict_eq andb Num.sub].
    cbn [Num.mul Num.add Num.strict_ne Num.strict_eq negb].
    rewrite div_NaN_r. cbn [Num.lt Num.gt Num.add Num.mul].
    rewrite add_NaN_r. now rewrite !haversine_NaN_lon.
  - destruct y1; try discriminate. rewrite andb_false_r. cbn [Num.sub].
    rewrite sub_NaN_r. cbn [Num.mul]. rewrite add_NaN_r.
    cbn [Num.strict_ne Num.strict_eq negb].
    rewrite div_NaN_r. cbn [Num.lt Num.gt Num.add Num.mul].
    rewrite add_NaN_r. now rewrite haversine_NaN_lon, haversine_NaN_lat.
  - now rewrite !NumFacts.strict_eq_refl.
Qed.

(** C5, as amended.  [haversineDistance a b] is [haversineDistance b a]
    for all coordinate pairs, and [haversineDistance a a] is 0 for
    every pair [a] of finite coordinates whose latitude is moderate: at
    most [1e307] in absolute value.  (The bound keeps the conversion of
    the latitude to radians, [lat * PI / 180], within the range of a
    double: beyond it the source computes [Infinity], whose cosine is
    [NaN].  The longitude only enters through [lon - lon].) *)
Theorem haversineDistance_symmetric_zero_on_equal :
  (forall a b : coord, haversineDistance a b = haversineDistance b a) /\
  (forall x y : R,
      moderate y -> haversineDistance (Fin x, Fin y) (Fin x, Fin y) = Fin 0).
Proof.
  split.
  - intros [lon1 lat1] [lon2 lat2]. unfold haversineDistance. cbv zeta.
    rewrite (NumFacts.sub_antisym lat1 lat2), (NumFacts.sub_antisym lon1 lon2).
    rewrite (sin_half_neg (Num.sub lat2 lat1)), (sin_half_neg (Num.sub lon2 lon1)).
    rewrite !NumFacts.mul_neg_r, !NumFacts.mul_neg_l, !NumFacts.neg_involutive.
    now rewrite (NumFacts.mul_comm (Num.cos (toRadians lat2))).
  - intros x y _. unfold haversineDistance. cbv zeta. cbn [Num.sub].
    replace (y - y) with 0 by lra. replace (x - x) with 0 by lra.
    rewrite !toRadians_Fin.
    replace (0 * Rtrigo1.PI / 180) with 0 by lra.
    rewrite NumFacts.div_Fin by lra.
    replace (0 / 2) with 0 by lra.
    cbn [Num.sin Num.cos Num.mul Num.add]. rewrite sin_0.
    match goal with |- context [Num.sqrt (Fin ?e)] => replace e with 0 by lra end.
    apply distance_of_zero_haversine.
Qed.

(** The amended C5 at a pair of the inhabited world. *)
Lemma haversineDistance_symmetric_zero_on_equal_witness :
  haversineDistance (Fin 16, Fin 45) (Fin 16, Fin 45) = Fin 0.
Proof.
  apply (proj2 haversineDistance_symmetric_zero_on_equal 16 45).
  unfold moderate. lra.
Defined.

(** C5 as stated fails: [[0, 90]] and [[1e-150, 90]] are different
    coordinate pairs at distance 0.  Both are the north pole, where the
    cosine of the latitude removes the term of the longitudes; in the
    source's double arithmetic that term, about [3.7e-33 * (8.7e-153)^2],
    is below the smallest positive double and the result is 0 as well. *)
Lemma haversineDistance_zero_for_distinct_pairs :
  haversineDistance (Fin 0, Fin 90) (Fin 1e-150, Fin 90) = Fin 0 /\
  (Fin 0, Fin 90) <> (Fin 1e-150, Fin 90).
Proof.
  split.
  - unfold haversineDistance. cbv zeta. cbn [Num.sub].
    replace (90 - 90) with 0 by lra.
    rewrite !toRadians_Fin.
    replace (0 * Rtrigo1.PI / 180) with 0 by lra.
    replace (90 * Rtrigo1.PI / 180) with (Rtrigo1.PI / 2) by lra.
    rewrite !NumFacts.div_Fin by lra.
    replace (0 / 2) with 0 by lra.
    cbn [Num.sin Num.cos Num.mul Num.add]. rewrite sin_0, cos_PI2.
    match goal with |- context [Num.sqrt (Fin ?e)] => replace e with 0 by lra end.
    apply distance_of_zero_haversine.
  - intros E. injection E as E. lra.
Qed.

End DistanceClaims.

(** *** The segment distance on small inputs *)

Section SegmentExamples.

Local Open Scope R_scope.

Ltac eval_segment :=
  cbv [pointToLineDistance Num.strict_eq Num.strict_ne Num.Reqb Num.Rltb Num.sub
       Num.mul Num.add Num.div Num.lt Num.gt andb negb];
  repeat match goal with
         | |- context [Req_dec_T ?x ?y] => destruct (Req_dec_T x y); try lra
         | |- context [Rlt_dec ?x ?y] => destruct (Rlt_dec x y); try lra
         end.

(** Above the middle of a horizontal segment the nearest point is the
    foot of the perpendicular. *)
Example pointToLineDistance_projects :
  pointToLineDistance (Fin 0.5, Fin 2) (Fin 0, Fin 1) (Fin 1, Fin 1)
  = haversineDistance (Fin 0.5, Fin 2) (Fin 0.5, Fin 1).
Proof. eval_segment. do 3 f_equal; lra. Qed.

(** Beyond the end of the segment the nearest point is that end. *)
Example pointToLineDistance_clamps_to_end :
  pointToLineDistance (Fin 3, Fin 2) (Fin 0, Fin 1) (Fin 1, Fin 1)
  = haversineDistance (Fin 3, Fin 2) (Fin 1, Fin 1).
Proof. eval_segment. reflexivity. Qed.

(** Before its start the nearest point is the start. *)
Example pointToLineDistance_clamps_to_start :
  pointToLineDistance (Fin (-3), Fin 2) (Fin 0, Fin 1) (Fin 1, Fin 1)
  = haversineDistance (Fin (-3), Fin 2) (Fin 0, Fin 1).
Proof. eval_segment. reflexivity. Qed.

End SegmentExamples.

(** ** Coordinate sanitizer *)

Section Sanitizer.

Lemma sanitizeRings_In (rings : list value) (r : ring) :
  In r (sanitizeRings rings) <->
  exists candidate, In candidate rings /\ sanitizeRing candidate = Some r.
Proof.
  induction rings as [| c rings IH]; cbn [sanitizeRings].
  - split; [intros [] | intros (c & [] & _)].
  - destruct (sanitizeRing c) as [r' |] eqn:E.
    + cbn [In]. rewrite IH. split.
      * intros [<- | (c' & Hin & Hc')]; [exists c | exists c']; auto.
      * intros (c' & [<- | Hin] & Hc').
        -- left. congruence.
        -- right. now exists c'.
    + rewrite IH. split.
      * intros (c' & Hin & Hc'). exists c'. cbn; auto.
      * intros (c' & [<- | Hin] & Hc'); [congruence | now exists c'].
Qed.

Lemma sanitizeRings_nil (rings : list value) :
  sanitizeRings rings = [] <->
  forall candidate, In candidate rings -> sanitizeRing candidate = None.
Proof.
  split.
  - intros E c Hin. destruct (sanitizeRing c) as [r |] eqn:Hc; [| reflexivity].
    assert (In r (sanitizeRings rings)) as F by (apply sanitizeRings_In; now exists c).
    rewrite E in F. destruct F.
  - intros H. destruct (sanitizeRings rings) as [| r rs] eqn:E; [reflexivity |].
    assert (In r (sanitizeRings rings)) as F by (rewrite E; now left).
    apply sanitizeRings_In in F as (c & Hin & Hc). rewrite (H c Hin) in Hc. discriminate.
Qed.

Lemma closeRing_short (r : ring) : (length r < 3)%nat -> closeRing r = None.
Proof.
  intros H. unfold closeRing.
  destruct (3 <=? length r)%nat eqn:E; [| reflexivity].
  apply Nat.leb_le in E. lia.
Qed.

Lemma closeRing_Some_length (r r' : ring) :
  closeRing r = Some r' -> (3 <= length r)%nat.
Proof.
  unfold closeRing. destruct (3 <=? length r)%nat eqn:E; [| discriminate].
  intros _. now apply Nat.leb_le.
Qed.

Lemma sanitizeRing_usable (candidate : value) :
  sanitizeRing candidate = closeRing (usablePoints candidate).
Proof. destruct candidate; reflexivity. Qed.

Lemma ensureNumericCoordinates_Some_In (coordinates : value) (out : list ring) (r : ring) :
  ensureNumericCoordinates coordinates = Some out ->
  In r out ->
  exists candidate,
    In candidate (candidates coordinates) /\ sanitizeRing candidate = Some r.
Proof.
  intros Hout Hin. destruct coordinates; try discriminate.
  unfold ensureNumericCoordinates in Hout.
  destruct (0 <? length (sanitizeRings elems))%nat; [| discriminate].
  injection Hout as <-. now apply sanitizeRings_In in Hin.
Qed.

(** The usable points a candidate ring keeps are numeric. *)
Lemma cleanPoints_are_numeric (points : list value) :
  Forall numeric_point (cleanPoints points).
Proof.
  induction points as [| p points IH]; cbn [cleanPoints]; [constructor |].
  destruct p as [| | | | | | [| p0 [| p1 ?]]]; try exact IH.
  destruct (Num.isNaN (ToNumber p0)) eqn:H0; [exact IH |].
  destruct (Num.isNaN (ToNumber p1)) eqn:H1; [exact IH |].
  constructor; [now split | exact IH].
Qed.

Lemma usablePoints_are_numeric (candidate : value) :
  Forall numeric_point (usablePoints candidate).
Proof. destruct candidate; try constructor. apply cleanPoints_are_numeric. Qed.

(** Two points, the first one numeric, fail both [!==] tests exactly
    when they are the same pair. *)
Lemma closing_test (first last : coord) :
  numeric_point first ->
  Num.strict_ne (fst first) (fst last) || Num.strict_ne (snd first) (snd last) = false
  <-> first = last.
Proof.
  destruct first as [x y], last as [x' y']. intros [Hx Hy]. cbn [fst snd] in *.
  unfold Num.strict_ne. rewrite orb_false_iff, !negb_false_iff. split.
  - intros [Ex Ey]. apply NumFacts.strict_eq_true in Ex as [-> _], Ey as [-> _].
    reflexivity.
  - intros E. injection E as <- <-. split; now apply NumFacts.strict_eq_refl.
Qed.

Lemma hd_numeric (r : ring) :
  Forall numeric_point r -> (0 < length r)%nat -> numeric_point (hd (NaN, NaN) r).
Proof. intros Hnum Hlen. destruct r; [cbn in Hlen; lia | now inversion Hnum]. Qed.

(** The exact rule of the length tests: a ring of usable points is
    dropped when it has fewer than 3 points, or exactly 3 of which the
    last repeats the first. *)
Lemma closeRing_None_iff (r : ring) :
  Forall numeric_point r -> closeRing r = None <-> too_short r.
Proof.
  intros Hnum. unfold closeRing, too_short.
  destruct (3 <=? length r)%nat eqn:E3.
  - apply Nat.leb_le in E3.
    pose proof (closing_test _ (last r (NaN, NaN)) (hd_numeric r Hnum ltac:(lia)))
      as Hclose.
    destruct (Num.strict_ne _ _ || Num.strict_ne _ _) eqn:Etest.
    + rewrite length_app. cbn [length].
      assert ((4 <=? length r + 1)%nat = true) as -> by (apply Nat.leb_le; lia).
      split; [discriminate |].
      intros [Hlt | [_ Heq]]; [lia |].
      apply Hclose in Heq. discriminate.
    + destruct (4 <=? length r)%nat eqn:E4.
      * apply Nat.leb_le in E4. split; [discriminate | lia].
      * apply Nat.leb_gt in E4. split; [| reflexivity].
        intros _. right. split; [lia | now apply Hclose].
  - apply Nat.leb_gt in E3. split; [now left | reflexivity].
Qed.

(** C4, as amended.  For every raw input the sanitizer drops a
    candidate ring exactly when its usable points are too few to make a
    closed ring of 4: fewer than 3 usable points, or exactly 3 of which
    the last repeats the first (repeated points are counted, a closing
    point is not); the rings it returns are those of the candidates it
    keeps; and it returns [None] exactly when all candidate rings are
    dropped. *)
Theorem ensureNumericCoordinates_drops_short_rings (coordinates : value) :
  (forall candidate,
      sanitizeRing candidate = None <-> too_short (usablePoints candidate))
  /\ (forall out,
        ensureNumericCoordinates coordinates = Some out ->
        forall r,
          In r out <->
          exists candidate,
            In candidate (candidates coordinates)
            /\ ~ too_short (usablePoints candidate)
            /\ sanitizeRing candidate = Some r)
  /\ (ensureNumericCoordinates coordinates = None <->
      forall candidate,
        In candidate (candidates coordinates) -> too_short (usablePoints candidate)).
Proof.
  assert (forall c, sanitizeRing c = None <-> too_short (usablePoints c)) as Hdrop.
  { intros c. rewrite sanitizeRing_usable.
    apply closeRing_None_iff, usablePoints_are_numeric. }
  split; [exact Hdrop | split].
  - intros out Hout r.
    destruct coordinates; try discriminate.
    unfold ensureNumericCoordinates in Hout. cbn [candidates].
    destruct (0 <? length (sanitizeRings elems))%nat; [| discriminate].
    injection Hout as <-. rewrite sanitizeRings_In. split.
    + intros (c & Hin & Hc). exists c. repeat split; auto.
      rewrite <- Hdrop, Hc. discriminate.
    + intros (c & Hin & _ & Hc). now exists c.
  - destruct coordinates; cbn [ensureNumericCoordinates candidates];
      try (split; [now intros _ c [] | reflexivity]).
    transitivity (forall c, In c elems -> sanitizeRing c = None).
    + rewrite <- sanitizeRings_nil.
      destruct (sanitizeRings elems) as [| r rs]; cbn.
      * split; reflexivity.
      * split; discriminate.
    + split; intros H c Hin; apply Hdrop, H, Hin.
Qed.

(** The amended C4 at a closed ring of three usable points, two of them
    different: the ring is dropped and, being the only one, leaves no
    result. *)
Lemma ensureNumericCoordinates_drops_short_rings_witness :
  let a := VArr [VNum (Fin 0); VNum (Fin 0)] in
  let b := VArr [VNum (Fin 1); VNum (Fin 2)] in
  ensureNumericCoordinates (VArr [VArr [a; b; a]]) = None.
Proof.
  intros a b.
  destruct (ensureNumericCoordinates_drops_short_rings (VArr [VArr [a; b; a]]))
    as (_ & _ & Hnone).
  apply Hnone. intros c [<- | []]. right. split; reflexivity.
Defined.

(** C4 as stated fails: a ring made of one point repeated four times
    has a single distinct usable point and is kept. *)
Lemma ensureNumericCoordinates_keeps_repeated_point :
  let p := VArr [VNum (Fin 0); VNum (Fin 0)] in
  let o := (Fin 0, Fin 0) in
  ~ three_distinct (usablePoints (VArr [p; p; p; p]))
  /\ ensureNumericCoordinates (VArr [VArr [p; p; p; p]]) = Some [[o; o; o; o]].
Proof.
  cbv zeta. split.
  - intros (a & b & c & Ha & Hb & _ & Hab & _). cbn in Ha, Hb.
    assert (a = (Fin 0, Fin 0)) as -> by intuition congruence.
    assert (b = (Fin 0, Fin 0)) as -> by intuition congruence.
    now apply Hab.
  - cbn. unfold closeRing. cbn.
    unfold Num.strict_ne, Num.strict_eq, Num.Reqb.
    destruct (Req_dec_T 0 0); [reflexivity | contradiction].
Qed.

Lemma cleanPoints_numeric (r : ring) :
  Forall numeric_point r -> cleanPoints (map coord_value r) = r.
Proof.
  induction 1 as [| [x y] r [Hx Hy] _ IH]; [reflexivity |].
  cbn in Hx, Hy |- *. now rewrite Hx, Hy, IH.
Qed.

Lemma last_app_singleton {A : Type} (l : list A) (x d : A) : last (l ++ [x]) d = x.
Proof.
  induction l as [| a l IH]; [reflexivity |].
  cbn [app last]. destruct (l ++ [x]) eqn:E; [now destruct l | exact IH].
Qed.

Lemma closeRing_valid (r : ring) : valid_ring r -> closeRing r = Some r.
Proof.
  intros (Hlen & (c & middle & ->) & Hnum).
  unfold closeRing.
  assert ((3 <=? length (c :: middle ++ [c]))%nat = true) as -> by (apply Nat.leb_le; lia).
  cbn [hd].
  rewrite (last_app_singleton (c :: middle) c (NaN, NaN) : last (c :: middle ++ [c]) _ = c).
  apply Forall_inv in Hnum as [Hx Hy].
  unfold Num.strict_ne. rewrite !NumFacts.strict_eq_refl by assumption. cbn [negb orb].
  assert ((4 <=? length (c :: middle ++ [c]))%nat = true) as -> by now apply Nat.leb_le.
  reflexivity.
Qed.

Lemma sanitizeRings_valid (rings : list ring) :
  Forall valid_ring rings -> sanitizeRings (map ring_value rings) = rings.
Proof.
  induction 1 as [| r rings Hr _ IH]; [reflexivity |].
  cbn [map sanitizeRings ring_value sanitizeRing].
  rewrite cleanPoints_numeric by apply Hr.
  now rewrite (closeRing_valid r Hr), IH.
Qed.

Lemma ensureNumericCoordinates_of_valid (rings : list ring) :
  rings <> [] ->
  Forall valid_ring rings ->
  ensureNumericCoordinates (rings_value rings) = Some rings.
Proof.
  intros Hne Hvalid. unfold rings_value, ensureNumericCoordinates.
  rewrite (sanitizeRings_valid rings Hvalid).
  destruct rings; [contradiction | reflexivity].
Qed.

(** C8, as amended.  On every non-empty list of rings that are closed,
    numeric and of length at least 4, the sanitizer returns that very
    list. *)
Theorem ensureNumericCoordinates_valid_unchanged (rings : list ring) :
  rings <> [] ->
  Forall valid_ring rings ->
  ensureNumericCoordinates (rings_value rings) = Some rings.
Proof.
  intros Hne Hvalid. unfold rings_value, ensureNumericCoordinates.
  assert (sanitizeRings (map ring_value rings) = rings) as ->.
  { clear Hne. induction Hvalid as [| r rings Hr _ IH]; [reflexivity |].
    cbn [map sanitizeRings ring_value sanitizeRing].
    rewrite cleanPoints_numeric by apply Hr.
    now rewrite (closeRing_valid r Hr), IH. }
  destruct rings; [contradiction | reflexivity].
Qed.

Lemma unit_square_valid : valid_ring unit_square.
Proof.
  split; [cbn; lia | split].
  - exists (Fin 0, Fin 0), [(Fin 0, Fin 1); (Fin 1, Fin 1); (Fin 1, Fin 0)]. reflexivity.
  - repeat constructor.
Defined.

(** The amended C8 at the unit square. *)
Lemma ensureNumericCoordinates_valid_unchanged_witness :
  ensureNumericCoordinates (rings_value [unit_square]) = Some [unit_square].
Proof.
  apply ensureNumericCoordinates_valid_unchanged.
  - discriminate.
  - constructor; [exact unit_square_valid | constructor].
Defined.

(** C8 as stated fails: in the empty ring list every ring is closed,
    numeric and of length at least 4, and the sanitizer returns [None]. *)
Lemma ensureNumericCoordinates_empty_list :
  Forall valid_ring [] /\ ensureNumericCoordinates (rings_value []) = None.
Proof. split; [constructor | reflexivity]. Qed.

(** What the closing step returns is a valid ring. *)
Lemma closeRing_returns_valid (r r' : ring) :
  Forall numeric_point r -> closeRing r = Some r' -> valid_ring r'.
Proof.
  intros Hnum. unfold closeRing.
  destruct (3 <=? length r)%nat eqn:H3; [| discriminate].
  apply Nat.leb_le in H3.
  destruct r as [| c rest]; [cbn in H3; lia |].
  cbn [hd]. set (l := last (c :: rest) (NaN, NaN)).
  destruct (Num.strict_ne (fst c) (fst l) || Num.strict_ne (snd c) (snd l)) eqn:Hne.
  - destruct (4 <=? length _)%nat eqn:H4; [| discriminate].
    intros [= <-]. apply Nat.leb_le in H4. split; [exact H4 | split].
    + exists c, rest. now destruct c.
    + change (Forall numeric_point ((c :: rest) ++ [(fst c, snd c)])).
      apply Forall_app. split; [exact Hnum |].
      constructor; [| constructor]. apply Forall_inv in Hnum. now destruct c.
  - destruct (4 <=? length _)%nat eqn:H4; [| discriminate].
    intros [= <-]. apply Nat.leb_le in H4. split; [exact H4 | split; [| exact Hnum]].
    apply orb_false_elim in Hne as [Hx Hy]. unfold Num.strict_ne in Hx, Hy.
    apply negb_false_iff, NumFacts.strict_eq_true in Hx as [Hx _].
    apply negb_false_iff, NumFacts.strict_eq_true in Hy as [Hy _].
    assert (l = c) as Hl by (destruct l, c; cbn in *; congruence).
    destruct rest as [| c' rest']; [cbn in H3; lia |].
    exists c, (removelast (c' :: rest')). f_equal.
    rewrite <- Hl. subst l.
    change (last (c :: c' :: rest') (NaN, NaN)) with (last (c' :: rest') (NaN, NaN)).
    apply app_removelast_last. discriminate.
Qed.

(** Idempotence proper: sanitizing a sanitized ring list returns it. *)
Lemma ensureNumericCoordinates_idempotent (coordinates : value) (out : list ring) :
  ensureNumericCoordinates coordinates = Some out ->
  ensureNumericCoordinates (rings_value out) = Some out.
Proof.
  intros Hout.
  assert (out <> []) as Hne.
  { destruct coordinates; try discriminate. unfold ensureNumericCoordinates in Hout.
    destruct (sanitizeRings elems); [discriminate |]. cbn in Hout. congruence. }
  apply ensureNumericCoordinates_of_valid; [exact Hne |].
  apply Forall_forall. intros r Hr.
  destruct (ensureNumericCoordinates_Some_In coordinates out r Hout Hr) as (c & _ & Hc).
  destruct c; try discriminate. cbn in Hc.
  eapply closeRing_returns_valid; [apply cleanPoints_are_numeric | exact Hc].
Qed.

End Sanitizer.

(** *** The sanitizer on small inputs *)

Section SanitizerExamples.

Local Open Scope R_scope.

(** Evaluates the sanitizer on explicit numbers. *)
Ltac eval_sanitizer :=
  cbv [ensureNumericCoordinates sanitizeRings sanitizeRing cleanPoints closeRing
       ToNumber Num.isNaN orb length Nat.leb Nat.ltb hd last fst snd app
       Num.strict_ne Num.strict_eq Num.Reqb negb];
  repeat match goal with
         | |- context [Req_dec_T ?x ?y] => destruct (Req_dec_T x y); try lra
         end;
  cbv [orb negb length Nat.leb Nat.ltb app];
  try reflexivity.

(** An open triangle is closed by a copy of its first point. *)
Example sanitize_open_triangle :
  ensureNumericCoordinates
    (VArr [VArr [VArr [VNum (Fin 0); VNum (Fin 0)];
                 VArr [VNum (Fin 0); VNum (Fin 1)];
                 VArr [VNum (Fin 1); VNum (Fin 1)]]])
  = Some [[(Fin 0, Fin 0); (Fin 0, Fin 1); (Fin 1, Fin 1); (Fin 0, Fin 0)]].
Proof. eval_sanitizer. Qed.

(** Three points the last of which repeats the first: nothing is
    appended and the ring, too short, is dropped. *)
Example sanitize_closed_pair :
  ensureNumericCoordinates
    (VArr [VArr [VArr [VNum (Fin 0); VNum (Fin 0)];
                 VArr [VNum (Fin 0); VNum (Fin 1)];
                 VArr [VNum (Fin 0); VNum (Fin 0)]]])
  = None.
Proof. eval_sanitizer. Qed.

(** Entries are coerced: a numeric string and [null] count, a third
    entry is ignored, [NaN], an object and a short array do not count. *)
Example sanitize_coerces :
  ensureNumericCoordinates
    (VArr [VNull;
           VArr [VArr [VStr "2.5" (Fin 2.5); VNull; VNum (Fin 9)];
                 VArr [VNum NaN; VNum (Fin 1)];
                 VArr [VObj; VNum (Fin 1)];
                 VArr [VNum (Fin 4)];
                 VArr [VNum (Fin 0); VNum (Fin 1)];
                 VNum (Fin 3);
                 VArr [VNum (Fin 1); VBool true]]])
  = Some [[(Fin 2.5, Fin 0); (Fin 0, Fin 1); (Fin 1, Fin 1); (Fin 2.5, Fin 0)]].
Proof. eval_sanitizer. Qed.

End SanitizerExamples.

(** ** The dataset cache *)

Section Cache.

Import DataService.

Local Open Scope Z_scope.

Lemma CACHE_TTL_ten_minutes : CACHE_TTL = 10 * 60 * 1000.
Proof. reflexivity. Qed.

Lemma getRoutes_fresh (this : t) (currentTime : Z) (data : list Route) :
  cachedData this = Some data ->
  currentTime - lastFetchTime this < CACHE_TTL ->
  getRoutes this currentTime = Done (Ok data, this).
Proof.
  intros Hc Hage. unfold getRoutes. rewrite Hc.
  apply Z.ltb_lt in Hage. now rewrite Hage.
Qed.

Lemma getRoutes_fetch_failed (this : t) (currentTime : Z) :
  fetches (getRoutes this currentTime) = true ->
  run (getRoutes this currentTime) None =
  match cachedData this with
  | Some data => (Ok data, this)
  | None => (Throw "Unable to fetch data and no cached data available.", this)
  end.
Proof.
  unfold getRoutes. destruct (cachedData this) as [data |]; [| reflexivity].
  destruct (currentTime - lastFetchTime this <? CACHE_TTL); [discriminate | reflexivity].
Qed.

Lemma getRoutes_fetch_succeeded (this : t) (currentTime : Z) (data' : list Route) :
  fetches (getRoutes this currentTime) = true ->
  run (getRoutes this currentTime) (Some data') =
  (Ok data', {| cachedData := Some data'; lastFetchTime := currentTime |}).
Proof.
  unfold getRoutes. destruct (cachedData this) as [data |]; [| reflexivity].
  destruct (currentTime - lastFetchTime this <? CACHE_TTL); [discriminate | reflexivity].
Qed.

(** The first call on a new instance makes the request. *)
Example getRoutes_initial (currentTime : Z) :
  fetches (getRoutes initial currentTime) = true.
Proof. reflexivity. Qed.

(** The request is made exactly when there is no cached dataset or the
    cached one has reached the time to live. *)
Lemma getRoutes_fetches_iff (this : t) (currentTime : Z) :
  fetches (getRoutes this currentTime) = true <->
  cachedData this = None \/ CACHE_TTL <= currentTime - lastFetchTime this.
Proof.
  unfold getRoutes. destruct (cachedData this) as [data |].
  - destruct (currentTime - lastFetchTime this <? CACHE_TTL) eqn:E; cbn.
    + apply Z.ltb_lt in E.
      split; [discriminate | intros [F | F]; [discriminate | unfold CACHE_TTL in *; lia]].
    + apply Z.ltb_ge in E. split; auto.
  - cbn. split; auto.
Qed.

(** Scenario E: after a refresh at [t0], a call within the time to live
    is answered from the cache, without a request. *)
Lemma getRoutes_after_refresh (this : t) (t0 t1 : Z) (data : list Route) :
  fetches (getRoutes this t0) = true ->
  t1 - t0 < CACHE_TTL ->
  let refreshed := snd (run (getRoutes this t0) (Some data)) in
  getRoutes refreshed t1 = Done (Ok data, refreshed).
Proof.
  intros Hf Hage. rewrite getRoutes_fetch_succeeded by exact Hf.
  cbn [snd]. now apply getRoutes_fresh.
Qed.

(** C3.  [getRoutes] answers with the cached dataset, without making
    the request, whenever there is one younger than the 10 minutes of
    [CACHE_TTL]; when the request is made and fails, it answers with the
    cached dataset whatever its age if there is one; it fails exactly
    when the request is made and fails and nothing is cached; and a
    failed request leaves the cached dataset and [lastFetchTime] as
    they were. *)
Theorem getRoutes_cache_contract (this : t) (currentTime : Z) :
  CACHE_TTL = 10 * 60 * 1000
  /\ (forall data,
        cachedData this = Some data ->
        currentTime - lastFetchTime this < CACHE_TTL ->
        getRoutes this currentTime = Done (Ok data, this))
  /\ (forall data,
        fetches (getRoutes this currentTime) = true ->
        cachedData this = Some data ->
        run (getRoutes this currentTime) None = (Ok data, this))
  /\ (forall response,
        (exists message, fst (run (getRoutes this currentTime) response) = Throw message)
        <-> fetches (getRoutes this currentTime) = true
            /\ response = None /\ cachedData this = None)
  /\ (fetches (getRoutes this currentTime) = true ->
      snd (run (getRoutes this currentTime) None) = this).
Proof.
  split; [reflexivity |]. split; [apply getRoutes_fresh |]. split; [| split].
  - intros data Hf Hc. rewrite getRoutes_fetch_failed by exact Hf. now rewrite Hc.
  - intros response. split.
    + intros [message Hm].
      destruct (fetches (getRoutes this currentTime)) eqn:Hf.
      * destruct response as [data' |].
        -- rewrite getRoutes_fetch_succeeded in Hm by exact Hf. discriminate.
        -- rewrite getRoutes_fetch_failed in Hm by exact Hf.
           destruct (cachedData this); [discriminate | auto].
      * exfalso. unfold getRoutes in Hm, Hf.
        destruct (cachedData this); [| discriminate].
        destruct (currentTime - lastFetchTime this <? CACHE_TTL); discriminate.
    + intros (Hf & -> & Hc). rewrite getRoutes_fetch_failed by exact Hf.
      rewrite Hc. now eexists.
  - intros Hf. rewrite getRoutes_fetch_failed by exact Hf.
    now destruct (cachedData this).
Qed.

(** C3 on a dataset cached 15 minutes ago, the request failing: the
    stale dataset is served and the instance is unchanged. *)
Lemma getRoutes_cache_contract_witness :
  let stale := {| cachedData := Some []; lastFetchTime := 0 |} in
  run (getRoutes stale 900000) None = (Ok [], stale).
Proof.
  intros stale.
  destruct (getRoutes_cache_contract stale 900000) as (_ & _ & Hstale & _).
  apply Hstale; reflexivity.
Defined.

End Cache.

(** ** The viewport query *)

Section Viewport.

Variable Poly : Type.
Variable turf_polygon : value -> option Poly.
Variable turf_bboxPolygon : number * number * number * number -> Poly.
Variable turf_booleanIntersects : Poly -> Poly -> option bool.

Local Abbreviation visit := (visitViewportPoint Poly turf_polygon turf_booleanIntersects).
Local Abbreviation viewport_loop := (viewportLoop Poly turf_polygon turf_booleanIntersects).
Local Abbreviation find_points :=
  (findPointsInViewport Poly turf_polygon turf_bboxPolygon turf_booleanIntersects).

Lemma sameValueZero_refl (k : ident) : sameValueZero k k = true.
Proof.
  destruct k as [| | b | n | s]; cbn; try reflexivity.
  - now destruct b.
  - destruct n; try reflexivity. cbn. unfold Num.Reqb.
    destruct (Req_dec_T r r); [reflexivity | contradiction].
  - apply String.eqb_refl.
Qed.

Lemma map_has_false_not_In (m : PointMap) (k : ident) :
  map_has m k = false -> ~ In k (map fst m).
Proof.
  induction m as [| [k' v'] m IH]; cbn; [tauto |].
  intros H [-> | Hin].
  - now rewrite sameValueZero_refl in H.
  - apply orb_false_elim in H as [_ H]. now apply IH.
Qed.

Lemma map_set_fresh (m : PointMap) (k : ident) (v : Point) :
  map_has m k = false -> map_set m k v = m ++ [(k, v)].
Proof.
  induction m as [| [k' v'] m IH]; cbn; [reflexivity |].
  intros H. apply orb_false_elim in H as [H1 H2].
  now rewrite H1, IH.
Qed.

Lemma map_ok_nil : map_ok [].
Proof. split; constructor. Qed.

Lemma visit_map_ok (bboxPolygon : Poly) (m : PointMap) (por : PointOnRoute) :
  map_ok m -> map_ok (visit bboxPolygon m por).
Proof.
  intros Hm. unfold visitViewportPoint.
  destruct (point por) as [pt |]; [| exact Hm].
  destruct (ident_truthy (point_id pt)) eqn:Ht; cbn [andb].
  - destruct (map_has m (point_id pt)) eqn:Hhas; [exact Hm |].
    destruct (isPointInViewport _ _ _ pt bboxPolygon); [| exact Hm].
    rewrite map_set_fresh by exact Hhas.
    destruct Hm as [Hnd Hall]. split.
    + rewrite map_app. cbn [map fst].
      apply NoDup_app; [exact Hnd | repeat constructor; intros [] |].
      intros k Hk [<- | []]. now apply (map_has_false_not_In m (point_id pt)).
    + apply Forall_app. split; [exact Hall |]. repeat constructor. exact Ht.
  - now destruct (isPointInViewport _ _ _ pt bboxPolygon).
Qed.

Lemma fold_visit_map_ok (bboxPolygon : Poly) (pors : list PointOnRoute) (m : PointMap) :
  map_ok m -> map_ok (fold_left (visit bboxPolygon) pors m).
Proof.
  revert m. induction pors as [| por pors IH]; intros m Hm; [exact Hm |].
  cbn [fold_left]. apply IH. now apply visit_map_ok.
Qed.

Lemma viewportLoop_map_ok (bboxPolygon : Poly) (routes : list Route) (m m' : PointMap) :
  map_ok m -> viewport_loop bboxPolygon routes m = Ok m' -> map_ok m'.
Proof.
  revert m. induction routes as [| route routes IH]; intros m Hm; cbn [viewportLoop].
  - now intros [= <-].
  - destruct (pointsOnRoutes route) as [pors |]; [| discriminate].
    apply IH. now apply fold_visit_map_ok.
Qed.

Lemma findPointsInViewport_map_ok
    (routes : list Route) (lng1 lat1 lng2 lat2 : number) (points : list Point) :
  find_points routes lng1 lat1 lng2 lat2 = Ok points ->
  exists m, map_ok m /\ points = map_values m.
Proof.
  unfold findPointsInViewport.
  destruct (viewport_loop _ routes []) as [m |] eqn:E; [| discriminate].
  intros [= <-]. exists m. split; [| reflexivity].
  eapply viewportLoop_map_ok; [apply map_ok_nil | exact E].
Qed.

Lemma map_ok_ids (m : PointMap) :
  map_ok m -> map point_id (map_values m) = map fst m.
Proof.
  intros [_ Hall]. unfold map_values. rewrite map_map.
  apply map_ext_in. intros kv Hin.
  rewrite Forall_forall in Hall. symmetry. now apply Hall.
Qed.

(** The query returns as soon as every route has an array of points. *)
Lemma findPointsInViewport_returns
    (routes : list Route) (lng1 lat1 lng2 lat2 : number) :
  Forall (fun route => pointsOnRoutes route <> None) routes ->
  exists points, find_points routes lng1 lat1 lng2 lat2 = Ok points.
Proof.
  intros Hall. unfold findPointsInViewport.
  generalize (@nil (ident * Point)).
  generalize (turf_bboxPolygon
                (Num.min lng1 lng2, Num.min lat1 lat2, Num.max lng1 lng2, Num.max lat1 lat2)).
  intros bboxPolygon.
  induction Hall as [| route routes Hr _ IH]; intros m; cbn [viewportLoop].
  - now eexists.
  - destruct (pointsOnRoutes route) as [pors |]; [| contradiction]. apply IH.
Qed.

(** C6.  Whatever the dataset and the viewport, the collection that
    [findPointsInViewport] returns never holds two points with the same
    identifier. *)
Theorem findPointsInViewport_unique_ids
    (routes : list Route) (lng1 lat1 lng2 lat2 : number) (points : list Point) :
  find_points routes lng1 lat1 lng2 lat2 = Ok points ->
  NoDup (map point_id points).
Proof.
  intros H. apply findPointsInViewport_map_ok in H as (m & Hm & ->).
  rewrite map_ok_ids by exact Hm. apply Hm.
Qed.

(** C7.  Swapping the two corners does not change the result: the
    bounding box takes the smaller and the larger longitude, and the
    smaller and the larger latitude, of the two. *)
Theorem findPointsInViewport_corner_order
    (routes : list Route) (lng1 lat1 lng2 lat2 : number) :
  find_points routes lng1 lat1 lng2 lat2 = find_points routes lng2 lat2 lng1 lat1.
Proof.
  unfold findPointsInViewport.
  now rewrite (NumFacts.min_comm lng1 lng2), (NumFacts.min_comm lat1 lat2),
    (NumFacts.max_comm lng1 lng2), (NumFacts.max_comm lat1 lat2).
Qed.

(** C10.  Only points with a truthy identifier appear in the result of
    [findPointsInViewport]: a point whose identifier is falsy (0 in
    particular) is never returned, whatever its region. *)
Theorem findPointsInViewport_truthy_ids
    (routes : list Route) (lng1 lat1 lng2 lat2 : number) (points : list Point) :
  find_points routes lng1 lat1 lng2 lat2 = Ok points ->
  Forall (fun pt => ident_truthy (point_id pt) = true) points.
Proof.
  intros H. apply findPointsInViewport_map_ok in H as (m & [_ Hall] & ->).
  unfold map_values. apply Forall_map.
  eapply Forall_impl; [| exact Hall]. now intros kv [_ Ht].
Qed.

End Viewport.

(** *** The viewport query on the sample data *)

Section ViewportExamples.

Lemma validPoint_coord_value (c : coord) :
  numeric_point c -> validPoint (coord_value c) = true.
Proof. intros [Hx Hy]. cbn. now rewrite Hx, Hy. Qed.

Lemma arePointsEqual_same (c : coord) :
  numeric_point c -> arePointsEqual (coord_value c) (coord_value c) = true.
Proof.
  intros [Hx Hy]. unfold arePointsEqual. cbn.
  now rewrite !NumFacts.strict_eq_refl.
Qed.

Lemma validRing_valid (r : ring) : valid_ring r -> validRing (ring_value r) = true.
Proof.
  intros (Hlen & (c & middle & ->) & Hnum). unfold ring_value, validRing.
  rewrite length_map.
  assert ((4 <=? length (c :: middle ++ [c]))%nat = true) as -> by now apply Nat.leb_le.
  assert (forallb validPoint (map coord_value (c :: middle ++ [c])) = true) as ->.
  { apply forallb_forall. intros v Hv. apply in_map_iff in Hv as (c' & <- & Hc').
    apply validPoint_coord_value. rewrite Forall_forall in Hnum. now apply Hnum. }
  cbn [andb map hd]. rewrite map_app. cbn [map].
  rewrite (last_app_singleton (coord_value c :: map coord_value middle) (coord_value c) VUndefined
           : last (coord_value c :: map coord_value middle ++ [coord_value c]) _ = _).
  apply arePointsEqual_same. now apply Forall_inv in Hnum.
Qed.

(** The rings the sanitizer accepts unchanged pass the validation of
    the viewport query. *)
Lemma isValidPolygonCoordinates_valid (rings : list ring) :
  rings <> [] ->
  Forall valid_ring rings ->
  isValidPolygonCoordinates (rings_value rings) = true.
Proof.
  intros Hne Hall. unfold rings_value, isValidPolygonCoordinates.
  rewrite length_map. destruct rings as [| r rings]; [contradiction |].
  cbn [length Nat.eqb negb andb]. apply forallb_forall.
  intros v Hv. apply in_map_iff in Hv as (r' & <- & Hr').
  apply validRing_valid. rewrite Forall_forall in Hall. now apply Hall.
Qed.

Lemma isPointInViewport_square (i : ident) (bboxPolygon : value) :
  isPointInViewport value sample_polygon sample_intersects (square_point i) bboxPolygon
  = true.
Proof.
  unfold isPointInViewport. cbn [square_point region region_coordinates square_region
                                 geometry coordinates region_is_polygon geometry_type].
  rewrite isValidPolygonCoordinates_valid.
  - reflexivity.
  - discriminate.
  - constructor; [exact unit_square_valid | constructor].
Qed.

Lemma ident_truthy_zero : ident_truthy (IdNum (Fin 0)) = false.
Proof.
  cbn. unfold Num.Reqb. destruct (Req_dec_T 0 0); [reflexivity | contradiction].
Qed.

(** Scenario C with three references: a point of identifier 0 and a
    point met twice.  The viewport [(-1,-1)]-[(2,2)] returns the second
    one, once; the first one is left out although its region meets the
    viewport. *)
Lemma findPointsInViewport_sample :
  findPointsInViewport value sample_polygon sample_bboxPolygon sample_intersects
    [square_route [IdNum (Fin 0); IdStr "a"]; square_route [IdStr "a"]]
    (Fin (-1)) (Fin (-1)) (Fin 2) (Fin 2)
  = Ok [square_point (IdStr "a")].
Proof.
  unfold findPointsInViewport.
  set (bboxPolygon := sample_bboxPolygon _).
  cbn [viewportLoop square_route pointsOnRoutes map fold_left].
  unfold visitViewportPoint at 3. cbn [point].
  rewrite isPointInViewport_square.
  change (point_id (square_point (IdNum (Fin 0)))) with (IdNum (Fin 0)).
  rewrite ident_truthy_zero. cbn [andb].
  unfold visitViewportPoint at 2. cbn [point].
  rewrite isPointInViewport_square.
  cbn [square_point point_id ident_truthy String.eqb Ascii.eqb Bool.eqb negb andb
       map_has map_set].
  unfold visitViewportPoint. cbn [point].
  cbn [square_point point_id ident_truthy String.eqb Ascii.eqb Bool.eqb negb andb orb
       map_has map_set sameValueZero].
  reflexivity.
Qed.

(** C6 on the sample. *)
Lemma findPointsInViewport_unique_ids_witness :
  NoDup (map point_id [square_point (IdStr "a")]).
Proof.
  exact (findPointsInViewport_unique_ids _ _ _ _ _ _ _ _ _ _ findPointsInViewport_sample).
Defined.

(** C10 on the sample. *)
Lemma findPointsInViewport_truthy_ids_witness :
  Forall (fun pt => ident_truthy (point_id pt) = true) [square_point (IdStr "a")].
Proof.
  exact (findPointsInViewport_truthy_ids _ _ _ _ _ _ _ _ _ _ findPointsInViewport_sample).
Defined.

End ViewportExamples.

(** ** Distance from a point to a route *)

Section RunningMinimum.

Lemma min_step_not_NaN (m d : number) :
  Num.isNaN m = false -> Num.isNaN (min_step m d) = false.
Proof.
  intros Hm. unfold min_step. destruct (Num.lt d m) eqn:E; [| exact Hm].
  destruct d; [discriminate E | reflexivity ..].
Qed.

Lemma min_step_PInf_r (m : number) : min_step m PInf = m.
Proof. unfold min_step. now rewrite NumFacts.lt_PInf_l. Qed.

(** The running minimum may take its elements in any grouping. *)
Lemma min_step_assoc (m x d : number) :
  Num.isNaN x = false ->
  min_step m (min_step x d) = min_step (min_step m x) d.
Proof.
  unfold min_step.
  destruct m, x, d; cbn; unfold Num.Rltb; intros Hx; try discriminate Hx;
    repeat match goal with
           | |- context [Rlt_dec ?a ?b] => destruct (Rlt_dec a b); cbn; unfold Num.Rltb
           end;
    try reflexivity; try (exfalso; lra).
Qed.

Lemma fold_min_step_not_NaN (l : list number) (m : number) :
  Num.isNaN m = false -> Num.isNaN (fold_left min_step l m) = false.
Proof.
  revert m. induction l as [| d l IH]; intros m Hm; [exact Hm |].
  cbn [fold_left]. apply IH. now apply min_step_not_NaN.
Qed.

Lemma min_step_fold (l : list number) (m x : number) :
  Num.isNaN x = false ->
  min_step m (fold_left min_step l x) = fold_left min_step l (min_step m x).
Proof.
  revert x. induction l as [| d l IH]; intros x Hx; [reflexivity |].
  cbn [fold_left]. rewrite IH by now apply min_step_not_NaN.
  now rewrite min_step_assoc.
Qed.

Lemma min_step_fold_PInf (l : list number) (m : number) :
  min_step m (fold_left min_step l PInf) = fold_left min_step l m.
Proof. rewrite min_step_fold by reflexivity. now rewrite min_step_PInf_r. Qed.

(** What a running minimum ends with. *)
Lemma fold_min_step_spec (l : list number) (m0 : number) :
  Num.isNaN m0 = false ->
  let m := fold_left min_step l m0 in
  Num.isNaN m = false
  /\ (forall d, In d l -> Num.lt d m = false)
  /\ Num.lt m0 m = false
  /\ (m = m0 \/ In m l).
Proof.
  revert m0. induction l as [| d l IH]; intros m0 Hm0; cbn zeta.
  - cbn. split; [exact Hm0 |]. split; [intros d [] |].
    split; [apply NumFacts.lt_irrefl | now left].
  - cbn [fold_left].
    pose proof (min_step_not_NaN m0 d Hm0) as Hs.
    destruct (IH (min_step m0 d) Hs) as (Hnan & Hlow & Hstart & Hin).
    cbn zeta in Hnan, Hlow, Hstart, Hin.
    set (m := fold_left min_step l (min_step m0 d)) in *.
    assert (Num.lt d (min_step m0 d) = false /\ Num.lt m0 (min_step m0 d) = false)
      as [Hd H0].
    { unfold min_step. destruct (Num.lt d m0) eqn:E.
      - split; [apply NumFacts.lt_irrefl | now apply NumFacts.lt_asym].
      - split; [exact E | apply NumFacts.lt_irrefl]. }
    repeat split.
    + exact Hnan.
    + intros d' [<- | Hd'].
      * now apply (NumFacts.lt_false_trans d (min_step m0 d) m).
      * now apply Hlow.
    + now apply (NumFacts.lt_false_trans m0 (min_step m0 d) m).
    + destruct Hin as [Hin | Hin]; [| right; now right].
      unfold min_step in Hin. destruct (Num.lt d m0).
      * right; left. now symmetry.
      * now left.
Qed.

Lemma fold_min_step_minimum (l : list number) :
  minimum_of (fold_left min_step l PInf) l.
Proof.
  destruct (fold_min_step_spec l PInf eq_refl) as (Hnan & Hlow & _ & Hin).
  repeat split; assumption.
Qed.

Lemma fold_left_flat_map {A B C : Type} (f : A -> C -> A) (g : B -> list C)
    (l : list B) (a : A) :
  fold_left f (flat_map g l) a = fold_left (fun acc x => fold_left f (g x) acc) l a.
Proof.
  revert a. induction l as [| x l IH]; intros a; [reflexivity |].
  cbn [flat_map fold_left]. now rewrite fold_left_app, IH.
Qed.

Lemma segmentsLoop_fold (userCoords : coord) (r : ring) (m : number) :
  segmentsLoop userCoords r m =
  fold_left min_step
    (map (fun e => pointToLineDistance userCoords (fst e) (snd e)) (edges r)) m.
Proof.
  revert m. induction r as [| p1 r IH]; intros m; [reflexivity |].
  destruct r as [| p2 r]; [reflexivity |].
  change (segmentsLoop userCoords (p1 :: p2 :: r) m)
    with (segmentsLoop userCoords (p2 :: r)
            (min_step m (pointToLineDistance userCoords p1 p2))).
  now rewrite IH.
Qed.

(** The nested loops over rings and segments compute the running
    minimum over all the edges. *)
Lemma calculateMinimumDistanceManually_fold
    (userPoint : PointFeature) (rings : list ring) :
  calculateMinimumDistanceManually userPoint rings =
  fold_left min_step (edge_distances (feature_coordinates userPoint) rings) PInf.
Proof.
  unfold calculateMinimumDistanceManually, edge_distances.
  rewrite fold_left_flat_map. generalize PInf.
  induction rings as [| r rings IH]; intros m; [reflexivity |].
  cbn [fold_left]. now rewrite segmentsLoop_fold, IH.
Qed.

End RunningMinimum.

Section DistanceToRoute.

Variable Poly : Type.
Variable turf_polygon : value -> option Poly.
Variable turf_booleanPointInPolygon : PointFeature -> Poly -> option bool.

Local Abbreviation visit :=
  (visitPointOnRoute Poly turf_polygon turf_booleanPointInPolygon).
Local Abbreviation distance_loop :=
  (distanceLoop Poly turf_polygon turf_booleanPointInPolygon).
Local Abbreviation distance_to_route :=
  (calculateDistanceToRoute Poly turf_polygon turf_booleanPointInPolygon).
Local Abbreviation standing_of :=
  (region_standing Poly turf_polygon turf_booleanPointInPolygon).
Local Abbreviation usable_for :=
  (usable Poly turf_polygon turf_booleanPointInPolygon).
Local Abbreviation distances :=
  (route_distances Poly turf_polygon turf_booleanPointInPolygon).

(** A falsy value is no array, so the sanitizer refuses it as well. *)
Lemma falsy_not_sanitized (coords : value) :
  truthy coords = false -> ensureNumericCoordinates coords = None.
Proof. destruct coords; try reflexivity. discriminate. Qed.

(** One iteration of the loop, by the standing of the region. *)
Lemma visit_by_standing
    (userPoint : PointFeature) (m : number) (por : PointOnRoute) :
  visit userPoint m por =
  match standing_of userPoint por with
  | Unusable => Continue m
  | Inside => Return (Fin 0)
  | Outside rings =>
      Continue (min_step m (calculateMinimumDistanceManually userPoint rings))
  end.
Proof.
  unfold visitPointOnRoute, region_standing.
  destruct (point por) as [pt |]; [| reflexivity].
  destruct (region_coordinates (region pt)) as [coords |]; [| reflexivity].
  destruct (truthy coords) eqn:Ht; cbn [negb].
  - destruct (ensureNumericCoordinates coords) as [rings |]; [| reflexivity].
    destruct (turf_polygon (rings_value rings)) as [polygon |]; [| reflexivity].
    destruct (turf_booleanPointInPolygon userPoint polygon) as [[|] |]; try reflexivity.
    unfold min_step. now destruct (Num.lt _ m).
  - now rewrite falsy_not_sanitized.
Qed.

Lemma distanceLoop_inside
    (userPoint : PointFeature) (pors : list PointOnRoute) (m : number) :
  Exists (fun por => standing_of userPoint por = Inside) pors ->
  distance_loop userPoint pors m = Fin 0.
Proof.
  intros H. revert m. induction pors as [| por pors IH]; intros m.
  - inversion H.
  - cbn [distanceLoop]. rewrite visit_by_standing.
    destruct (standing_of userPoint por) eqn:E.
    + apply IH. inversion H as [? ? F | ]; [congruence | assumption].
    + reflexivity.
    + apply IH. inversion H as [? ? F | ]; [congruence | assumption].
Qed.

Lemma distanceLoop_outside
    (userPoint : PointFeature) (pors : list PointOnRoute) (m : number) :
  Forall (fun por => standing_of userPoint por <> Inside) pors ->
  distance_loop userPoint pors m = fold_left min_step (distances userPoint pors) m.
Proof.
  intros H. revert m. induction H as [| por pors Hpor _ IH]; intros m; [reflexivity |].
  cbn [distanceLoop]. rewrite visit_by_standing.
  unfold route_distances. cbn [flat_map]. rewrite fold_left_app.
  destruct (standing_of userPoint por) eqn:E.
  - apply IH.
  - contradiction.
  - rewrite IH. unfold route_distances. f_equal.
    rewrite calculateMinimumDistanceManually_fold. apply min_step_fold_PInf.
Qed.

Lemma distanceLoop_skips_unusable
    (userPoint : PointFeature) (pors : list PointOnRoute) (m : number) :
  distance_loop userPoint (filter (usable_for userPoint) pors) m =
  distance_loop userPoint pors m.
Proof.
  revert m. induction pors as [| por pors IH]; intros m; [reflexivity |].
  cbn [filter distanceLoop]. unfold usable at 1.
  rewrite (visit_by_standing userPoint m por).
  destruct (standing_of userPoint por) eqn:E.
  - apply IH.
  - cbn [distanceLoop]. now rewrite visit_by_standing, E.
  - cbn [distanceLoop]. now rewrite visit_by_standing, E, IH.
Qed.

Lemma distances_unusable (userPoint : PointFeature) (pors : list PointOnRoute) :
  Forall (fun por => standing_of userPoint por = Unusable) pors ->
  distances userPoint pors = [].
Proof.
  induction 1 as [| por pors Hpor _ IH]; [reflexivity |].
  unfold route_distances in *. cbn [flat_map]. now rewrite Hpor, IH.
Qed.

(** The loop never ends on [NaN]. *)
Lemma distanceLoop_not_NaN
    (userPoint : PointFeature) (pors : list PointOnRoute) (m : number) :
  Num.isNaN m = false -> Num.isNaN (distance_loop userPoint pors m) = false.
Proof.
  revert m. induction pors as [| por pors IH]; intros m Hm; [exact Hm |].
  cbn [distanceLoop]. rewrite visit_by_standing.
  destruct (standing_of userPoint por).
  - now apply IH.
  - reflexivity.
  - apply IH. now apply min_step_not_NaN.
Qed.

(** C1.  For a route and a query point, [calculateDistanceToRoute]
    returns 0 if the point is inside the polygon of any region on the
    route; otherwise it returns the least point-to-segment distance over
    every edge of every sanitized ring of every usable region; it
    returns [+Infinity] when every region on the route is unusable; and
    unusable regions are skipped: the route without them has the same
    distance. *)
Theorem calculateDistanceToRoute_spec
    (route : Route) (userPoint : PointFeature) (pors : list PointOnRoute) :
  pointsOnRoutes route = Some pors ->
  (Exists (fun por => standing_of userPoint por = Inside) pors ->
   distance_to_route route userPoint = Ok (Fin 0))
  /\ (Forall (fun por => standing_of userPoint por <> Inside) pors ->
      exists m, distance_to_route route userPoint = Ok m
                /\ minimum_of m (distances userPoint pors))
  /\ (Forall (fun por => standing_of userPoint por = Unusable) pors ->
      distance_to_route route userPoint = Ok PInf)
  /\ distance_to_route
       (mkRoute (route_id route) (route_createdAt route)
                (Some (filter (usable_for userPoint) pors)))
       userPoint
     = distance_to_route route userPoint.
Proof.
  intros Hpors. unfold calculateDistanceToRoute. rewrite Hpors. cbn [pointsOnRoutes].
  split; [| split; [| split]].
  - intros H. now rewrite distanceLoop_inside.
  - intros H. eexists. split; [reflexivity |].
    rewrite distanceLoop_outside by exact H. apply fold_min_step_minimum.
  - intros H. rewrite distanceLoop_outside.
    + now rewrite distances_unusable.
    + eapply Forall_impl; [| exact H]. cbn. intros por E. now rewrite E.
  - now rewrite distanceLoop_skips_unusable.
Qed.

End DistanceToRoute.

(** ** Sorting by a numeric key *)

Section SortByKey.

Context {A : Type}.
Variable key : A -> number.

Local Abbreviation by_key := (fun a b : A => Num.sub (key a) (key b)).

(** [a] may stand before [b]: the key of [b] is not below the key of [a]. *)
Local Abbreviation key_le := (fun a b : A => Num.lt (key b) (key a) = false).

(** On keys other than [NaN] the comparison function orders as [<] does. *)
Lemma SortCompare_by_key (x y : A) :
  Num.isNaN (key x) = false ->
  Num.isNaN (key y) = false ->
  Num.gt (SortCompare by_key x y) (Fin 0) = Num.lt (key y) (key x).
Proof.
  unfold SortCompare, Num.gt.
  destruct (key x) as [| | | a], (key y) as [| | | b]; cbn; try discriminate;
    try reflexivity; intros _ _; unfold Num.Rltb.
  - destruct (Rlt_dec 0 0); [lra | reflexivity].
  - destruct (Rlt_dec 0 0); [lra | reflexivity].
  - destruct (Rlt_dec 0 (a - b)), (Rlt_dec b a); try reflexivity; lra.
Qed.

Lemma sort_insert_perm (x : A) (l : list A) :
  Permutation (sort_insert by_key x l) (x :: l).
Proof.
  induction l as [| y l IH]; cbn [sort_insert]; [reflexivity |].
  destruct (Num.gt _ _); [| reflexivity].
  rewrite IH. apply perm_swap.
Qed.

Lemma array_sort_perm (l : list A) : Permutation (array_sort by_key l) l.
Proof.
  induction l as [| x l IH]; cbn [array_sort]; [reflexivity |].
  rewrite sort_insert_perm. now constructor.
Qed.

Lemma sort_insert_sorted (x : A) (l : list A) :
  Num.isNaN (key x) = false ->
  Forall (fun a => Num.isNaN (key a) = false) l ->
  StronglySorted key_le l ->
  StronglySorted key_le (sort_insert by_key x l).
Proof.
  intros Hx Hl Hs. induction Hs as [| y l Hs IH Hy]; cbn [sort_insert].
  - repeat constructor.
  - apply Forall_cons_iff in Hl as [Hky Hl].
    rewrite SortCompare_by_key by assumption.
    destruct (Num.lt (key y) (key x)) eqn:E.
    + constructor; [now apply IH |].
      eapply Permutation_Forall; [symmetry; apply sort_insert_perm |].
      constructor; [now apply NumFacts.lt_asym | exact Hy].
    + constructor; [now constructor |].
      constructor; [exact E |].
      eapply Forall_impl; [| exact Hy]. cbn. intros z Hz.
      now apply (NumFacts.lt_false_trans (key z) (key y) (key x)).
Qed.

Lemma array_sort_sorted (l : list A) :
  Forall (fun a => Num.isNaN (key a) = false) l ->
  StronglySorted key_le (array_sort by_key l).
Proof.
  induction 1 as [| x l Hx Hl IH]; cbn [array_sort]; [constructor |].
  apply sort_insert_sorted; [exact Hx | | exact IH].
  eapply Permutation_Forall; [symmetry; apply array_sort_perm | exact Hl].
Qed.

End SortByKey.

Lemma StronglySorted_map_in {A B : Type} (f : A -> B)
    (R : A -> A -> Prop) (R' : B -> B -> Prop) (Q : A -> Prop) (l : list A) :
  (forall a b, Q a -> Q b -> R a b -> R' (f a) (f b)) ->
  Forall Q l ->
  StronglySorted R l ->
  StronglySorted R' (map f l).
Proof.
  intros Himp HQ Hs. induction Hs as [| a l Hs IH Ha]; cbn [map]; [constructor |].
  apply Forall_cons_iff in HQ as [Hqa HQ].
  constructor; [now apply IH |].
  apply Forall_map. rewrite Forall_forall in *.
  intros b Hb. apply Himp; auto.
Qed.

Lemma slice_from_0_firstn {A : Type} (items : list A) (count : Z) :
  (0 <= count)%Z ->
  slice_from_0 items count = firstn (Nat.min (Z.to_nat count) (length items)) items.
Proof.
  intros Hc. unfold slice_from_0.
  assert ((count <? 0)%Z = false) as -> by now apply Z.ltb_ge.
  f_equal. lia.
Qed.

(** ** Ranking of the routes *)

Section NearestRoutes.

Variable Poly : Type.
Variable turf_point : coord -> option PointFeature.
Variable turf_polygon : value -> option Poly.
Variable turf_booleanPointInPolygon : PointFeature -> Poly -> option bool.

Local Abbreviation distance_to_route :=
  (calculateDistanceToRoute Poly turf_polygon turf_booleanPointInPolygon).
Local Abbreviation with_distance :=
  (withDistance Poly turf_polygon turf_booleanPointInPolygon).
Local Abbreviation ranking :=
  (ranking_distance Poly turf_polygon turf_booleanPointInPolygon).
Local Abbreviation find_nearest :=
  (findNearestRoutes Poly turf_point turf_polygon turf_booleanPointInPolygon).

Lemma withDistance_fst (userPoint : PointFeature) (route : Route) :
  fst (with_distance userPoint route) = route.
Proof. unfold withDistance. now destruct (distance_to_route route userPoint). Qed.

Lemma ranking_distance_thrown (userPoint : PointFeature) (route : Route) (message : string) :
  distance_to_route route userPoint = Throw message ->
  ranking userPoint route = PInf.
Proof. intros H. unfold ranking_distance, withDistance. now rewrite H. Qed.

Lemma ranking_distance_returned (userPoint : PointFeature) (route : Route) (d : number) :
  distance_to_route route userPoint = Ok d ->
  ranking userPoint route = d.
Proof. intros H. unfold ranking_distance, withDistance. now rewrite H. Qed.

Lemma ranking_distance_not_NaN (userPoint : PointFeature) (route : Route) :
  Num.isNaN (ranking userPoint route) = false.
Proof.
  unfold ranking_distance, withDistance, calculateDistanceToRoute.
  destruct (pointsOnRoutes route) as [pors |]; [| reflexivity].
  cbn [snd]. now apply distanceLoop_not_NaN.
Qed.

(** C2.  For a dataset of routes, a query point that [turf.point]
    accepts and a count of at least 1, [findNearestRoutes] returns the
    first [min count n] routes of a reordering of the whole dataset by
    non-decreasing distance, where the distance of a route is the one
    [calculateDistanceToRoute] returns and [+Infinity] when it throws:
    such a route is ranked last, not dropped. *)
Theorem findNearestRoutes_ranked
    (routes : list Route) (lng lat : number) (count : Z) (userPoint : PointFeature) :
  turf_point (lng, lat) = Some userPoint ->
  (1 <= count)%Z ->
  exists result rest : list Route,
    find_nearest routes lng lat count = Ok result
    /\ Z.of_nat (length result) = Z.min count (Z.of_nat (length routes))
    /\ Permutation (result ++ rest) routes
    /\ StronglySorted
         (fun r1 r2 => Num.lt (ranking userPoint r2) (ranking userPoint r1) = false)
         (result ++ rest)
    /\ (forall route, Num.isNaN (ranking userPoint route) = false)
    /\ (forall route d,
           distance_to_route route userPoint = Ok d -> ranking userPoint route = d)
    /\ (forall route message,
           distance_to_route route userPoint = Throw message ->
           ranking userPoint route = PInf).
Proof.
  intros Hpoint Hcount. unfold findNearestRoutes. rewrite Hpoint.
  set (pairs := map (with_distance userPoint) routes).
  set (sorted := array_sort (fun a b => Num.sub (snd a) (snd b)) pairs).
  assert (Permutation sorted pairs) as Hperm by apply (array_sort_perm snd).
  assert (Forall (fun p => p = with_distance userPoint (fst p)) pairs) as Hpairs.
  { apply Forall_forall. intros p Hp. apply in_map_iff in Hp as (r & <- & _).
    now rewrite withDistance_fst. }
  assert (length sorted = length routes) as Hlen.
  { rewrite (Permutation_length Hperm). apply length_map. }
  rewrite slice_from_0_firstn by lia. rewrite Hlen.
  set (n := Nat.min (Z.to_nat count) (length routes)).
  exists (map fst (firstn n sorted)), (map fst (skipn n sorted)).
  rewrite <- map_app, firstn_skipn.
  split; [reflexivity |]. split; [| split; [| split; [| split; [| split]]]].
  - rewrite length_map, length_firstn, Hlen. subst n. lia.
  - rewrite Hperm. unfold pairs. rewrite map_map.
    erewrite map_ext; [rewrite map_id; reflexivity |].
    intros r. apply withDistance_fst.
  - apply (StronglySorted_map_in fst
             (fun a b => Num.lt (snd b) (snd a) = false) _
             (fun p => p = with_distance userPoint (fst p))).
    + intros a b Ha Hb Hab. unfold ranking_distance. now rewrite <- Ha, <- Hb.
    + eapply Permutation_Forall; [symmetry; exact Hperm | exact Hpairs].
    + apply (array_sort_sorted snd).
      apply Forall_forall. intros p Hp. apply in_map_iff in Hp as (r & <- & _).
      apply ranking_distance_not_NaN.
  - apply ranking_distance_not_NaN.
  - apply ranking_distance_returned.
  - apply ranking_distance_thrown.
Qed.

End NearestRoutes.

(** *** The distance and the ranking on the sample data *)

Section DistanceExamples.

Lemma sample_outside_never_inside (userPoint : PointFeature) (por : PointOnRoute) :
  region_standing value sample_polygon sample_outside userPoint por <> Inside.
Proof.
  unfold region_standing, sample_polygon, sample_outside.
  destruct (point por) as [pt |]; [| discriminate].
  destruct (region_coordinates (region pt)) as [coords |]; [| discriminate].
  destruct (ensureNumericCoordinates coords); discriminate.
Qed.

(** C1 on a route with an unusable reference followed by the unit
    square, the query point [(10, 10)] being outside. *)
Lemma calculateDistanceToRoute_spec_witness :
  let userPoint := mkPointFeature (Fin 10, Fin 10) in
  exists m,
    calculateDistanceToRoute value sample_polygon sample_outside patchy_route userPoint
    = Ok m
    /\ minimum_of m
         (route_distances value sample_polygon sample_outside userPoint
            [mkPointOnRoute None; mkPointOnRoute (Some (square_point (IdNum (Fin 7))))]).
Proof.
  intros userPoint.
  apply (calculateDistanceToRoute_spec value sample_polygon sample_outside
           patchy_route userPoint _ eq_refl).
  apply Forall_forall. intros por _. apply sample_outside_never_inside.
Defined.

(** C2 on a dataset of two routes, the first of which throws, with a
    count of 1: one route is returned. *)
Lemma findNearestRoutes_ranked_witness :
  exists result,
    findNearestRoutes value sample_point_feature sample_polygon sample_outside
      [broken_route; patchy_route] (Fin 10) (Fin 10) 1
    = Ok result
    /\ length result = 1%nat.
Proof.
  destruct (findNearestRoutes_ranked value sample_point_feature sample_polygon
              sample_outside [broken_route; patchy_route] (Fin 10) (Fin 10) 1
              (mkPointFeature (Fin 10, Fin 10)) eq_refl ltac:(lia))
    as (result & rest & Hres & Hlen & _).
  exists result. split; [exact Hres |]. cbn in Hlen. lia.
Defined.

End DistanceExamples.

(** * Further properties *)

(** ** The sanitizer and the validation *)

Section SanitizerAndValidation.

Lemma validPoint_inv (p : value) :
  validPoint p = true ->
  exists a b rest,
    p = VArr (VNum a :: VNum b :: rest)
    /\ Num.isNaN a = false /\ Num.isNaN b = false.
Proof.
  destruct p as [| | | | | | [| [| | | a | | |] [| [| | | b | | |] rest]]];
    cbn; try discriminate.
  intros H. apply andb_prop in H as [Ha Hb].
  exists a, b, rest. repeat split.
  - now apply negb_true_iff.
  - now apply negb_true_iff.
Qed.

Lemma cleanPoints_of_validPoints (points : list value) :
  forallb validPoint points = true ->
  cleanPoints points = map point_pair points.
Proof.
  induction points as [| p points IH]; [reflexivity |].
  cbn [forallb]. intros H. apply andb_prop in H as [Hp Hrest].
  destruct (validPoint_inv p Hp) as (a & b & rest & -> & Ha & Hb).
  cbn [cleanPoints ToNumber map]. rewrite Ha, Hb. cbn [orb].
  unfold point_pair at 1. cbn. now rewrite IH.
Qed.

Lemma hd_map_default {A B : Type} (f : A -> B) (l : list A) (d : A) (d' : B) :
  l <> [] -> hd d' (map f l) = f (hd d l).
Proof. destruct l; [contradiction | reflexivity]. Qed.

Lemma last_map_default {A B : Type} (f : A -> B) (l : list A) (d : A) (d' : B) :
  l <> [] -> last (map f l) d' = f (last l d).
Proof.
  induction l as [| a l IH]; [contradiction |]. intros _.
  destruct l as [| b l]; [reflexivity |].
  change (last (map f (a :: b :: l)) d') with (last (map f (b :: l)) d').
  change (last (a :: b :: l) d) with (last (b :: l) d).
  apply IH. discriminate.
Qed.

Lemma arePointsEqual_valid (p q : value) :
  validPoint p = true -> validPoint q = true ->
  arePointsEqual p q = true ->
  Num.strict_ne (fst (point_pair p)) (fst (point_pair q)) = false
  /\ Num.strict_ne (snd (point_pair p)) (snd (point_pair q)) = false.
Proof.
  intros Hp Hq.
  destruct (validPoint_inv p Hp) as (a & b & rest & -> & _ & _).
  destruct (validPoint_inv q Hq) as (a' & b' & rest' & -> & _ & _).
  unfold arePointsEqual, point_pair, Num.strict_ne. cbn.
  intros H. apply andb_prop in H as [-> ->]. now split.
Qed.

Lemma sanitizeRing_of_validRing (candidate : value) :
  validRing candidate = true ->
  sanitizeRing candidate = Some (map point_pair (elements candidate)).
Proof.
  destruct candidate as [| | | | | | points]; try discriminate.
  cbn [validRing sanitizeRing elements]. intros H.
  apply andb_prop in H as [H Hclosed]. apply andb_prop in H as [Hlen Hpoints].
  apply Nat.leb_le in Hlen.
  rewrite (cleanPoints_of_validPoints points Hpoints).
  assert (points <> []) as Hne by (destruct points; [cbn in Hlen; lia | discriminate]).
  unfold closeRing. rewrite length_map.
  assert ((3 <=? length points)%nat = true) as -> by (apply Nat.leb_le; lia).
  rewrite (hd_map_default point_pair points VUndefined) by exact Hne.
  rewrite (last_map_default point_pair points VUndefined) by exact Hne.
  assert (validPoint (hd VUndefined points) = true) as Hhd.
  { destruct points as [| p ?]; [contradiction |]. cbn in Hpoints |- *.
    now apply andb_prop in Hpoints as [-> _]. }
  assert (validPoint (last points VUndefined) = true) as Hlast.
  { rewrite forallb_forall in Hpoints. apply Hpoints.
    rewrite (app_removelast_last VUndefined Hne) at 2.
    apply in_or_app. right. now left. }
  destruct (arePointsEqual_valid _ _ Hhd Hlast Hclosed) as [-> ->].
  cbn [orb]. rewrite length_map.
  now assert ((4 <=? length points)%nat = true) as -> by now apply Nat.leb_le.
Qed.

(** X1.  Coordinates that pass [isValidPolygonCoordinates] lose nothing
    in the sanitizer: it returns every ring, in order, with every point,
    each point reduced to the pair of its first two entries. *)
Theorem valid_coordinates_sanitize_losslessly (coords : value) :
  isValidPolygonCoordinates coords = true ->
  ensureNumericCoordinates coords
  = Some (map (fun candidate => map point_pair (elements candidate)) (elements coords)).
Proof.
  destruct coords as [| | | | | | rings]; try discriminate.
  cbn [isValidPolygonCoordinates ensureNumericCoordinates elements].
  intros H. apply andb_prop in H as [Hne Hrings].
  assert (sanitizeRings rings
          = map (fun candidate => map point_pair (elements candidate)) rings) as ->.
  { clear Hne. induction rings as [| c rings IH]; [reflexivity |].
    cbn [forallb] in Hrings. apply andb_prop in Hrings as [Hc Hrest].
    cbn [sanitizeRings map]. rewrite (sanitizeRing_of_validRing c Hc).
    now rewrite IH. }
  rewrite length_map. destruct rings; [discriminate Hne | reflexivity].
Qed.

(** X1 at the unit square seen as raw coordinates. *)
Lemma valid_coordinates_sanitize_losslessly_witness :
  ensureNumericCoordinates (rings_value [unit_square])
  = Some (map (fun candidate => map point_pair (elements candidate))
              (elements (rings_value [unit_square]))).
Proof.
  apply valid_coordinates_sanitize_losslessly.
  apply isValidPolygonCoordinates_valid; [discriminate |].
  constructor; [exact unit_square_valid | constructor].
Defined.

End SanitizerAndValidation.

Section SanitizerOutput.

Lemma sanitized_rings_valid (coords : value) (out : list ring) :
  ensureNumericCoordinates coords = Some out ->
  out <> [] /\ Forall valid_ring out.
Proof.
  intros Hout. split.
  - destruct coords; try discriminate. unfold ensureNumericCoordinates in Hout.
    destruct (sanitizeRings elems); [discriminate |]. cbn in Hout. congruence.
  - apply Forall_forall. intros r Hr.
    destruct (ensureNumericCoordinates_Some_In coords out r Hout Hr) as (c & _ & Hc).
    destruct c; try discriminate. cbn in Hc.
    eapply closeRing_returns_valid; [apply cleanPoints_are_numeric | exact Hc].
Qed.

(** X2.  Whatever the raw input, a result of the sanitizer is a
    non-empty list of rings that are closed, free of [NaN] and of
    length at least 4; seen again as raw coordinates it passes
    [isValidPolygonCoordinates], and the sanitizer returns it unchanged. *)
Theorem sanitizer_output_is_valid (coords : value) (out : list ring) :
  ensureNumericCoordinates coords = Some out ->
  out <> []
  /\ Forall valid_ring out
  /\ isValidPolygonCoordinates (rings_value out) = true
  /\ ensureNumericCoordinates (rings_value out) = Some out.
Proof.
  intros Hout. destruct (sanitized_rings_valid coords out Hout) as [Hne Hvalid].
  split; [exact Hne |]. split; [exact Hvalid |]. split.
  - now apply isValidPolygonCoordinates_valid.
  - now apply ensureNumericCoordinates_of_valid.
Qed.

(** X2 at an open triangle, which the sanitizer closes. *)
Lemma sanitizer_output_is_valid_witness :
  let closed := [(Fin 0, Fin 0); (Fin 0, Fin 1); (Fin 1, Fin 1); (Fin 0, Fin 0)] in
  isValidPolygonCoordinates (rings_value [closed]) = true
  /\ ensureNumericCoordinates (rings_value [closed]) = Some [closed].
Proof.
  intros closed.
  destruct (sanitizer_output_is_valid _ _ sanitize_open_triangle) as (_ & _ & Hv & Hs).
  now split.
Defined.

Lemma closeRing_shape (r r' : ring) :
  closeRing r = Some r' ->
  r' = r \/ r' = r ++ [hd (NaN, NaN) r].
Proof.
  unfold closeRing. destruct (3 <=? length r)%nat; [| discriminate].
  destruct (Num.strict_ne _ _ || Num.strict_ne _ _).
  - destruct (4 <=? length _)%nat; [| discriminate]. intros [= <-]. right.
    now destruct (hd (NaN, NaN) r).
  - destruct (4 <=? length _)%nat; [| discriminate]. intros [= <-]. now left.
Qed.

(** X3.  The sanitizer never alters, drops or reorders the usable
    points of a ring it keeps: each returned ring is the list of usable
    points of one candidate ring, as it is or followed by a copy of its
    first point; and it returns at most as many rings as it was given. *)
Theorem sanitizer_keeps_usable_points (coords : value) (out : list ring) :
  ensureNumericCoordinates coords = Some out ->
  (length out <= length (candidates coords))%nat
  /\ forall r, In r out ->
       exists candidate,
         In candidate (candidates coords)
         /\ (r = usablePoints candidate
             \/ r = usablePoints candidate ++ [hd (NaN, NaN) (usablePoints candidate)]).
Proof.
  intros Hout. split.
  - destruct coords; try discriminate. unfold ensureNumericCoordinates in Hout.
    destruct (0 <? length (sanitizeRings elems))%nat; [| discriminate].
    injection Hout as <-. cbn [candidates].
    induction elems as [| c elems IH]; [reflexivity |].
    cbn [sanitizeRings]. destruct (sanitizeRing c); cbn [length]; lia.
  - intros r Hr.
    destruct (ensureNumericCoordinates_Some_In coords out r Hout Hr) as (c & Hc & Hs).
    exists c. split; [exact Hc |].
    rewrite sanitizeRing_usable in Hs. now apply closeRing_shape.
Qed.

(** X3 at the input of [sanitize_coerces]. *)
Lemma sanitizer_keeps_usable_points_witness :
  (length [[(Fin 2.5, Fin 0); (Fin 0, Fin 1); (Fin 1, Fin 1); (Fin 2.5, Fin 0)]]
   <= 2)%nat.
Proof.
  exact (proj1 (sanitizer_keeps_usable_points _ _ sanitize_coerces)).
Defined.

End SanitizerOutput.

(** ** Range of the distances *)

Section HaversineRange.

Local Open Scope R_scope.

Lemma atan_nonneg (x : R) : 0 <= x -> 0 <= atan x.
Proof.
  intros [Hx | <-].
  - left. rewrite <- atan_0. now apply atan_increasing.
  - rewrite atan_0. lra.
Qed.

Lemma toRadians_not_finite (x : number) :
  is_finite x = false -> is_finite (toRadians x) = false.
Proof.
  unfold toRadians. pose proof PI_RGT_0 as Hpi.
  destruct x as [| | | r]; cbn; try discriminate; intros _; try reflexivity;
    unfold Num.inf_of_sign;
    destruct (Rlt_dec 0 Rtrigo1.PI); try lra; cbn;
    destruct (Rlt_dec 180 0); try lra; reflexivity.
Qed.

Lemma sub_not_finite_l (x y : number) :
  is_finite x = false -> is_finite (Num.sub x y) = false.
Proof. destruct x, y; cbn; try discriminate; reflexivity. Qed.

Lemma sub_not_finite_r (x y : number) :
  is_finite y = false -> is_finite (Num.sub x y) = false.
Proof. destruct x, y; cbn; try discriminate; reflexivity. Qed.

Lemma sin_half_not_finite (x : number) :
  is_finite x = false -> Num.sin (Num.div x (Fin 2)) = NaN.
Proof.
  destruct x as [| | | r]; cbn; try discriminate; intros _; try reflexivity;
    destruct (Rlt_dec 2 0); try lra; reflexivity.
Qed.

Lemma cos_not_finite (x : number) : is_finite x = false -> Num.cos x = NaN.
Proof. destruct x; cbn; try discriminate; reflexivity. Qed.

Lemma haversine_NaN_or_bounded (point1 point2 : coord) :
  haversineDistance point1 point2 = NaN
  \/ bounded_distance (haversineDistance point1 point2).
Proof.
  unfold bounded_distance.
  destruct point1 as [lon1 lat1], point2 as [lon2 lat2].
  unfold haversineDistance. cbv zeta.
  set (s1 := Num.sin (Num.div (toRadians (Num.sub lat2 lat1)) (Fin 2))).
  set (s2 := Num.sin (Num.div (toRadians (Num.sub lon2 lon1)) (Fin 2))).
  set (c1 := Num.cos (toRadians lat1)). set (c2 := Num.cos (toRadians lat2)).
  assert (forall x, Num.sin x = NaN \/ exists r, Num.sin x = Fin r) as Hsin
    by (intros [| | | r]; cbn; eauto).
  assert (forall x, Num.cos x = NaN \/ exists r, Num.cos x = Fin r) as Hcos
    by (intros [| | | r]; cbn; eauto).
  set (a := Num.add (Num.mul s1 s1) (Num.mul (Num.mul (Num.mul c1 c2) s2) s2)).
  assert (a = NaN \/ exists r, a = Fin r) as [-> | [v ->]].
  { subst a.
    destruct (Hsin (Num.div (toRadians (Num.sub lat2 lat1)) (Fin 2))) as [E1 | [r1 E1]];
      fold s1 in E1; rewrite E1; [now left |].
    destruct (Hsin (Num.div (toRadians (Num.sub lon2 lon1)) (Fin 2))) as [E2 | [r2 E2]];
      fold s2 in E2; rewrite E2; [left; now rewrite !mul_NaN_r |].
    destruct (Hcos (toRadians lat1)) as [E3 | [r3 E3]]; fold c1 in E3; rewrite E3;
      [now left |].
    destruct (Hcos (toRadians lat2)) as [E4 | [r4 E4]]; fold c2 in E4; rewrite E4;
      [now left |].
    right. cbn. eauto. }
  - now left.
  - cbn [Num.sub]. unfold Num.sqrt.
    destruct (Rlt_dec v 0); [now left |].
    destruct (Rlt_dec (1 - v) 0); [now left |].
    pose proof (sqrt_pos v) as Hs. pose proof (sqrt_pos (1 - v)) as Hc.
    pose proof PI_RGT_0 as Hpi.
    set (s := sqrt v) in *. set (c := sqrt (1 - v)) in *.
    right. unfold Num.atan2.
    destruct (Rlt_dec 0 c) as [Hpos |].
    + pose proof (atan_bound (s / c)) as [_ Hub].
      assert (0 <= atan (s / c)) as Hlb.
      { apply atan_nonneg. apply Rmult_le_pos; [exact Hs |].
        left. now apply Rinv_0_lt_compat. }
      eexists. split; [reflexivity |]. lra.
    + destruct (Rlt_dec c 0); [lra |].
      destruct (Rlt_dec 0 s).
      * eexists. split; [reflexivity |]. lra.
      * destruct (Rlt_dec s 0); [lra |].
        eexists. split; [reflexivity |]. lra.
Qed.

(** Whatever the branch taken, the segment distance is a haversine
    distance from the point. *)
Lemma pointToLineDistance_is_haversine (p s1 s2 : coord) :
  exists q, pointToLineDistance p s1 s2 = haversineDistance p q.
Proof.
  destruct p as [x y], s1 as [x1 y1], s2 as [x2 y2]. unfold pointToLineDistance.
  destruct (Num.strict_eq x1 x2 && Num.strict_eq y1 y2); [now eexists |].
  cbv zeta. destruct (Num.lt _ (Fin 0)); [now eexists |].
  destruct (Num.gt _ (Fin 1)); now eexists.
Qed.

Lemma pointToLine_NaN_or_bounded (p s1 s2 : coord) :
  pointToLineDistance p s1 s2 = NaN \/ bounded_distance (pointToLineDistance p s1 s2).
Proof.
  destruct (pointToLineDistance_is_haversine p s1 s2) as [q ->].
  apply haversine_NaN_or_bounded.
Qed.

(** X4.  [haversineDistance] and [pointToLineDistance] never return a
    negative number or an infinity: for all arguments the result is
    [NaN] or a finite number between 0 and half the circumference of
    the sphere, [6371 * PI]. *)
Theorem distances_NaN_or_bounded (p q s1 s2 : coord) :
  (haversineDistance p q = NaN \/ bounded_distance (haversineDistance p q))
  /\ (pointToLineDistance p s1 s2 = NaN
      \/ bounded_distance (pointToLineDistance p s1 s2)).
Proof.
  split.
  - apply haversine_NaN_or_bounded.
  - destruct (pointToLineDistance_is_haversine p s1 s2) as [q' ->].
    apply haversine_NaN_or_bounded.
Qed.

(** X5.  A coordinate that is not a finite number, in either point,
    makes [haversineDistance] return [NaN]. *)
Theorem haversineDistance_not_finite (lon1 lat1 lon2 lat2 : number) :
  is_finite lon1 && is_finite lat1 && is_finite lon2 && is_finite lat2 = false ->
  haversineDistance (lon1, lat1) (lon2, lat2) = NaN.
Proof.
  intros H. unfold haversineDistance. cbv zeta.
  assert (is_finite (Num.sub lat2 lat1) = false \/ is_finite (Num.sub lon2 lon1) = false)
    as [Hlat | Hlon].
  { destruct (is_finite lon1) eqn:E1; [| right; now apply sub_not_finite_r].
    destruct (is_finite lat1) eqn:E2; [| left; now apply sub_not_finite_r].
    destruct (is_finite lon2) eqn:E3; [| right; now apply sub_not_finite_l].
    destruct (is_finite lat2) eqn:E4; [discriminate H | left; now apply sub_not_finite_l]. }
  - rewrite (sin_half_not_finite _ (toRadians_not_finite _ Hlat)). reflexivity.
  - rewrite (sin_half_not_finite _ (toRadians_not_finite _ Hlon)).
    now rewrite !mul_NaN_r, add_NaN_r.
Qed.

(** X5 at a point of infinite longitude. *)
Lemma haversineDistance_not_finite_witness :
  haversineDistance (Fin 0, Fin 0) (PInf, Fin 0) = NaN.
Proof. apply haversineDistance_not_finite. reflexivity. Defined.

End HaversineRange.

(** ** The minimum distance to a polygon and to a route *)

Section MinimumDistance.

Local Open Scope R_scope.

Lemma distance_value_not_NaN (m : number) : distance_value m -> Num.isNaN m = false.
Proof. intros [-> | (d & -> & _)]; reflexivity. Qed.

Lemma distance_value_nonneg (m : number) : distance_value m -> Num.lt m (Fin 0) = false.
Proof.
  intros [-> | (d & -> & Hd)]; [reflexivity |]. cbn. unfold Num.Rltb.
  destruct (Rlt_dec d 0); [lra | reflexivity].
Qed.

Lemma min_step_distance_value (m d : number) :
  distance_value m -> d = NaN \/ bounded_distance d -> distance_value (min_step m d).
Proof.
  intros Hm [-> | Hd]; unfold min_step.
  - now rewrite NumFacts.lt_NaN_l.
  - destruct (Num.lt d m); [now right | exact Hm].
Qed.

Lemma fold_min_step_distance_value (l : list number) (m : number) :
  distance_value m ->
  Forall (fun d => d = NaN \/ bounded_distance d) l ->
  distance_value (fold_left min_step l m).
Proof.
  intros Hm Hl. revert m Hm. induction Hl as [| d l Hd _ IH]; intros m Hm; [exact Hm |].
  cbn [fold_left]. apply IH. now apply min_step_distance_value.
Qed.

Lemma edge_distances_bounded (userCoords : coord) (rings : list ring) :
  Forall (fun d => d = NaN \/ bounded_distance d) (edge_distances userCoords rings).
Proof.
  apply Forall_forall. intros d Hd. unfold edge_distances in Hd.
  apply in_flat_map in Hd as (r & _ & Hd). apply in_map_iff in Hd as (e & <- & _).
  apply pointToLine_NaN_or_bounded.
Qed.

Lemma edges_short (r : ring) : (length r < 2)%nat -> edges r = [].
Proof. destruct r as [| p1 [| p2 r]]; cbn; [reflexivity | reflexivity | lia]. Qed.

(** X7.  [calculateMinimumDistanceManually] returns the least of the
    distances from the query point to the edges of all the rings
    ([NaN] distances passed over): it is [+Infinity] or a finite
    distance between 0 and [6371 * PI], never [NaN]; and it is
    [+Infinity] for a polygon without edges. *)
Theorem calculateMinimumDistanceManually_minimum
    (userPoint : PointFeature) (rings : list ring) :
  minimum_of (calculateMinimumDistanceManually userPoint rings)
             (edge_distances (feature_coordinates userPoint) rings)
  /\ distance_value (calculateMinimumDistanceManually userPoint rings)
  /\ (Forall (fun r => (length r < 2)%nat) rings ->
      calculateMinimumDistanceManually userPoint rings = PInf).
Proof.
  rewrite calculateMinimumDistanceManually_fold. split; [| split].
  - apply fold_min_step_minimum.
  - apply fold_min_step_distance_value; [now left | apply edge_distances_bounded].
  - intros Hshort.
    assert (edge_distances (feature_coordinates userPoint) rings = []) as ->; [| reflexivity].
    unfold edge_distances. induction Hshort as [| r rings Hr _ IH]; [reflexivity |].
    cbn [flat_map]. now rewrite (edges_short r Hr), IH.
Qed.

End MinimumDistance.

Section DistanceToRouteOutcome.

Variable Poly : Type.
Variable turf_polygon : value -> option Poly.
Variable turf_booleanPointInPolygon : PointFeature -> Poly -> option bool.

Local Abbreviation visit :=
  (visitPointOnRoute Poly turf_polygon turf_booleanPointInPolygon).
Local Abbreviation distance_loop :=
  (distanceLoop Poly turf_polygon turf_booleanPointInPolygon).
Local Abbreviation distance_to_route :=
  (calculateDistanceToRoute Poly turf_polygon turf_booleanPointInPolygon).
Local Abbreviation standing_of :=
  (region_standing Poly turf_polygon turf_booleanPointInPolygon).
Local Abbreviation distances :=
  (route_distances Poly turf_polygon turf_booleanPointInPolygon).

Lemma calculateMinimum_distance_value (userPoint : PointFeature) (rings : list ring) :
  distance_value (calculateMinimumDistanceManually userPoint rings).
Proof.
  rewrite calculateMinimumDistanceManually_fold.
  apply fold_min_step_distance_value; [now left | apply edge_distances_bounded].
Qed.

Lemma distanceLoop_distance_value
    (userPoint : PointFeature) (pors : list PointOnRoute) (m : number) :
  distance_value m -> distance_value (distance_loop userPoint pors m).
Proof.
  revert m. induction pors as [| por pors IH]; intros m Hm; [exact Hm |].
  cbn [distanceLoop]. rewrite visit_by_standing.
  destruct (standing_of userPoint por).
  - now apply IH.
  - right. exists 0%R. split; [reflexivity |]. pose proof PI_RGT_0. lra.
  - apply IH. unfold min_step.
    destruct (Num.lt _ m); [apply calculateMinimum_distance_value | exact Hm].
Qed.

(** The loop never ends above the minimum it started with. *)
Lemma distanceLoop_below_start
    (userPoint : PointFeature) (pors : list PointOnRoute) (m : number) :
  distance_value m -> Num.lt m (distance_loop userPoint pors m) = false.
Proof.
  revert m. induction pors as [| por pors IH]; intros m Hm.
  - apply NumFacts.lt_irrefl.
  - cbn [distanceLoop]. rewrite visit_by_standing.
    destruct (standing_of userPoint por).
    + now apply IH.
    + now apply distance_value_nonneg.
    + assert (distance_value (min_step m (calculateMinimumDistanceManually userPoint rings)))
        as Hs.
      { unfold min_step.
        destruct (Num.lt _ m); [apply calculateMinimum_distance_value | exact Hm]. }
      apply (NumFacts.lt_false_trans m
               (min_step m (calculateMinimumDistanceManually userPoint rings))).
      * now apply distance_value_not_NaN.
      * unfold min_step.
        destruct (Num.lt (calculateMinimumDistanceManually userPoint rings) m) eqn:E.
        -- now apply NumFacts.lt_asym.
        -- apply NumFacts.lt_irrefl.
      * now apply IH.
Qed.

Lemma distanceLoop_app
    (userPoint : PointFeature) (pors more : list PointOnRoute) (m : number) :
  distance_loop userPoint (pors ++ more) m
  = if existsb (fun por => match standing_of userPoint por with
                           | Inside => true
                           | _ => false
                           end) pors
    then Fin 0
    else distance_loop userPoint more (distance_loop userPoint pors m).
Proof.
  revert m. induction pors as [| por pors IH]; intros m; [reflexivity |].
  cbn [app distanceLoop existsb]. rewrite visit_by_standing.
  destruct (standing_of userPoint por); cbn [orb]; try apply IH. reflexivity.
Qed.

Lemma distanceLoop_inside_existsb
    (userPoint : PointFeature) (pors : list PointOnRoute) (m : number) :
  existsb (fun por => match standing_of userPoint por with
                      | Inside => true
                      | _ => false
                      end) pors = true ->
  distance_loop userPoint pors m = Fin 0.
Proof.
  intros H. apply distanceLoop_inside. apply existsb_exists in H as (por & Hin & Hpor).
  apply Exists_exists. exists por. split; [exact Hin |].
  now destruct (standing_of userPoint por).
Qed.

(** X8.  [calculateDistanceToRoute] throws exactly when the route has
    no iterable [pointsOnRoutes]; otherwise it returns [+Infinity] or a
    finite distance between 0 and [6371 * PI]: never [NaN], never a
    negative number. *)
Theorem calculateDistanceToRoute_outcome (route : Route) (userPoint : PointFeature) :
  match pointsOnRoutes route with
  | None => exists message, distance_to_route route userPoint = Throw message
  | Some _ =>
      exists m, distance_to_route route userPoint = Ok m /\ distance_value m
  end.
Proof.
  unfold calculateDistanceToRoute.
  destruct (pointsOnRoutes route) as [pors |]; [| now eexists].
  eexists. split; [reflexivity |].
  apply distanceLoop_distance_value. now left.
Qed.

(** X9.  More points on a route never make it farther: the distance
    of a route with further points appended is not above the distance
    of the route without them. *)
Theorem calculateDistanceToRoute_more_points
    (route : Route) (userPoint : PointFeature) (pors more : list PointOnRoute) :
  pointsOnRoutes route = Some pors ->
  exists d d',
    distance_to_route route userPoint = Ok d
    /\ distance_to_route
         (mkRoute (route_id route) (route_createdAt route) (Some (pors ++ more)))
         userPoint = Ok d'
    /\ Num.lt d d' = false.
Proof.
  intros Hpors. unfold calculateDistanceToRoute. rewrite Hpors. cbn [pointsOnRoutes].
  do 2 eexists. split; [reflexivity |]. split; [reflexivity |].
  rewrite distanceLoop_app.
  destruct (existsb _ pors) eqn:E.
  - rewrite distanceLoop_inside_existsb by exact E. apply NumFacts.lt_irrefl.
  - apply distanceLoop_below_start. apply distanceLoop_distance_value. now left.
Qed.

(** Two minima of the same distances, listed in any order, are equal. *)
Lemma minimum_of_unique (m m' : number) (l l' : list number) :
  Permutation l l' -> minimum_of m l -> minimum_of m' l' -> m = m'.
Proof.
  intros Hperm (Hnan & Hlow & Hin) (Hnan' & Hlow' & Hin').
  assert (forall d, In d l <-> In d l') as Hmem.
  { intros d. split; apply Permutation_in; [exact Hperm | now symmetry]. }
  assert (Num.lt m m' = false) as H1.
  { destruct Hin as [-> | Hin]; [apply NumFacts.lt_PInf_l |].
    apply Hlow'. now apply Hmem. }
  assert (Num.lt m' m = false) as H2.
  { destruct Hin' as [-> | Hin']; [apply NumFacts.lt_PInf_l |].
    apply Hlow. now apply Hmem. }
  destruct (NumFacts.lt_total m m' Hnan Hnan') as [E | [E | E]]; congruence.
Qed.

Lemma route_distances_perm (userPoint : PointFeature) (pors pors' : list PointOnRoute) :
  Permutation pors pors' ->
  Permutation (distances userPoint pors) (distances userPoint pors').
Proof. intros H. unfold route_distances. now apply Permutation_flat_map. Qed.

Lemma Inside_or_none (userPoint : PointFeature) (pors : list PointOnRoute) :
  Exists (fun por => standing_of userPoint por = Inside) pors
  \/ Forall (fun por => standing_of userPoint por <> Inside) pors.
Proof.
  induction pors as [| por pors [IH | IH]].
  - right. constructor.
  - left. now apply Exists_cons_tl.
  - destruct (standing_of userPoint por) eqn:E.
    + right. constructor; [congruence | exact IH].
    + left. now apply Exists_cons_hd.
    + right. constructor; [congruence | exact IH].
Qed.

(** X10.  The distance to a route does not depend on the order of the
    points on the route. *)
Theorem calculateDistanceToRoute_order
    (route : Route) (userPoint : PointFeature) (pors pors' : list PointOnRoute) :
  pointsOnRoutes route = Some pors ->
  Permutation pors pors' ->
  distance_to_route
    (mkRoute (route_id route) (route_createdAt route) (Some pors')) userPoint
  = distance_to_route route userPoint.
Proof.
  intros Hpors Hperm. unfold calculateDistanceToRoute.
  rewrite Hpors. cbn [pointsOnRoutes]. f_equal.
  destruct (Inside_or_none userPoint pors) as [Hin | Hout].
  - rewrite (distanceLoop_inside _ _ _ userPoint pors) by exact Hin.
    apply distanceLoop_inside.
    apply Exists_exists in Hin as (por & Hpor & E). apply Exists_exists.
    exists por. split; [now apply (Permutation_in por Hperm) | exact E].
  - assert (Forall (fun por => standing_of userPoint por <> Inside) pors') as Hout'.
    { apply Forall_forall. intros por Hpor. rewrite Forall_forall in Hout.
      apply Hout. now apply (Permutation_in por (Permutation_sym Hperm)). }
    rewrite !distanceLoop_outside by assumption.
    apply (minimum_of_unique _ _ (distances userPoint pors') (distances userPoint pors)).
    + apply route_distances_perm. now symmetry.
    + apply fold_min_step_minimum.
    + apply fold_min_step_minimum.
Qed.

End DistanceToRouteOutcome.

Section DistanceToRouteExamples.

(** X9 on the sample route, a reference without a point appended. *)
Lemma calculateDistanceToRoute_more_points_witness :
  exists d d',
    calculateDistanceToRoute value sample_polygon sample_outside patchy_route
      (mkPointFeature (Fin 10, Fin 10)) = Ok d
    /\ calculateDistanceToRoute value sample_polygon sample_outside
         (mkRoute (Fin 2) "2025-01-01T00:00:00Z"
            (Some ([mkPointOnRoute None;
                    mkPointOnRoute (Some (square_point (IdNum (Fin 7))))]
                   ++ [mkPointOnRoute None])))
         (mkPointFeature (Fin 10, Fin 10)) = Ok d'
    /\ Num.lt d d' = false.
Proof.
  exact (calculateDistanceToRoute_more_points value sample_polygon sample_outside
           patchy_route (mkPointFeature (Fin 10, Fin 10)) _ [mkPointOnRoute None] eq_refl).
Defined.

(** X10 on the sample route with its two references swapped. *)
Lemma calculateDistanceToRoute_order_witness :
  calculateDistanceToRoute value sample_polygon sample_outside
    (mkRoute (Fin 2) "2025-01-01T00:00:00Z"
       (Some [mkPointOnRoute (Some (square_point (IdNum (Fin 7)))); mkPointOnRoute None]))
    (mkPointFeature (Fin 10, Fin 10))
  = calculateDistanceToRoute value sample_polygon sample_outside patchy_route
      (mkPointFeature (Fin 10, Fin 10)).
Proof.
  apply (calculateDistanceToRoute_order value sample_polygon sample_outside
           patchy_route (mkPointFeature (Fin 10, Fin 10)) _ _ eq_refl).
  apply perm_swap.
Defined.

End DistanceToRouteExamples.

(** ** What the viewport query returns *)

Section ViewportResult.

Variable Poly : Type.
Variable turf_polygon : value -> option Poly.
Variable turf_bboxPolygon : number * number * number * number -> Poly.
Variable turf_booleanIntersects : Poly -> Poly -> option bool.

Local Abbreviation visit := (visitViewportPoint Poly turf_polygon turf_booleanIntersects).
Local Abbreviation viewport_loop := (viewportLoop Poly turf_polygon turf_booleanIntersects).
Local Abbreviation find_points :=
  (findPointsInViewport Poly turf_polygon turf_bboxPolygon turf_booleanIntersects).
Local Abbreviation in_viewport :=
  (isPointInViewport Poly turf_polygon turf_booleanIntersects).
Local Abbreviation wanted_in := (wanted Poly turf_polygon turf_booleanIntersects).

Lemma sameValueZero_eq (a b : ident) : sameValueZero a b = true -> a = b.
Proof.
  destruct a as [| | x | [| | | x] | x], b as [| | y | [| | | y] | y]; cbn;
    try discriminate; try reflexivity.
  - intros H. apply Bool.eqb_prop in H. now subst.
  - unfold Num.Reqb. destruct (Req_dec_T x y); [now subst | discriminate].
  - intros H. apply String.eqb_eq in H. now subst.
Qed.

Lemma map_has_existsb (m : PointMap) (k : ident) :
  map_has m k = existsb (fun k' => sameValueZero k' k) (map fst m).
Proof.
  induction m as [| [k' v'] m IH]; [reflexivity |]. cbn. now rewrite IH.
Qed.

(** The points collected from the point references of one route. *)
Lemma fold_visit_first_by_id (bboxPolygon : Poly) (pors : list PointOnRoute) (m : PointMap) :
  let points := flat_map (fun por => match point por with
                                     | Some pt => [pt]
                                     | None => []
                                     end) pors in
  let m' := fold_left (visit bboxPolygon) pors m in
  map_values m' = map_values m ++ first_by_id (map fst m) (filter (wanted_in bboxPolygon) points)
  /\ map fst m'
     = map fst m
       ++ map point_id (first_by_id (map fst m) (filter (wanted_in bboxPolygon) points)).
Proof.
  cbv zeta. revert m. induction pors as [| por pors IH]; intros m.
  - cbn. now rewrite !app_nil_r.
  - cbn [fold_left flat_map]. rewrite filter_app.
    unfold visitViewportPoint at 2 4.
    destruct (point por) as [pt |]; [| cbn [filter app]; apply IH].
    cbn [filter app]. unfold wanted at 1 3.
    destruct (ident_truthy (point_id pt)) eqn:Ht; cbn [andb].
    + rewrite map_has_existsb.
      destruct (in_viewport pt bboxPolygon) eqn:Hv.
      * cbn [app first_by_id].
        destruct (existsb _ (map fst m)) eqn:Hhas; [apply IH |].
        rewrite map_set_fresh by now rewrite map_has_existsb.
        destruct (IH (m ++ [(point_id pt, pt)])) as [IH1 IH2].
        rewrite IH1, IH2. unfold map_values. rewrite !map_app. cbn [map fst snd].
        rewrite <- !app_assoc. cbn [app]. now split.
      * cbn [app]. destruct (existsb _ (map fst m)); apply IH.
    + cbn [app]. destruct (in_viewport pt bboxPolygon); apply IH.
Qed.

Lemma first_by_id_app (seen : list ident) (l1 l2 : list Point) :
  first_by_id seen (l1 ++ l2)
  = first_by_id seen l1 ++ first_by_id (seen ++ map point_id (first_by_id seen l1)) l2.
Proof.
  revert seen. induction l1 as [| pt l1 IH]; intros seen.
  - cbn. now rewrite app_nil_r.
  - cbn [app first_by_id]. destruct (existsb _ seen); [apply IH |].
    cbn [map app]. rewrite IH. now rewrite <- app_assoc.
Qed.

Lemma viewportLoop_first_by_id (bboxPolygon : Poly) (routes : list Route) (m : PointMap) :
  Forall (fun route => pointsOnRoutes route <> None) routes ->
  exists m',
    viewport_loop bboxPolygon routes m = Ok m'
    /\ map_values m'
       = map_values m
         ++ first_by_id (map fst m)
              (filter (wanted_in bboxPolygon) (referenced_points routes))
    /\ map fst m'
       = map fst m
         ++ map point_id
              (first_by_id (map fst m)
                 (filter (wanted_in bboxPolygon) (referenced_points routes))).
Proof.
  intros Hall. revert m. induction Hall as [| route routes Hr _ IH]; intros m.
  - exists m. cbn. now rewrite !app_nil_r.
  - change (referenced_points (route :: routes))
      with (route_points route ++ referenced_points routes).
    cbn [viewportLoop]. unfold route_points.
    destruct (pointsOnRoutes route) as [pors |]; [| contradiction].
    destruct (fold_visit_first_by_id bboxPolygon pors m) as [H1 H2]. cbv zeta in H1, H2.
    destruct (IH (fold_left (visit bboxPolygon) pors m)) as (m' & Hm' & H3 & H4).
    exists m'. split; [exact Hm' |].
    rewrite H3, H4, H1, H2, filter_app, first_by_id_app, map_app, <- !app_assoc.
    now split.
Qed.

Lemma viewportLoop_throws (bboxPolygon : Poly) (routes : list Route) (m : PointMap) :
  Exists (fun route => pointsOnRoutes route = None) routes ->
  exists message, viewport_loop bboxPolygon routes m = Throw message.
Proof.
  intros H. revert m. induction routes as [| route routes IH]; intros m.
  - inversion H.
  - cbn [viewportLoop]. destruct (pointsOnRoutes route) as [pors |] eqn:E.
    + apply IH. inversion H as [? ? F | ]; [congruence | assumption].
    + now eexists.
Qed.

Lemma viewportLoop_Ok_all_iterable (bboxPolygon : Poly) (routes : list Route) (m m' : PointMap) :
  viewport_loop bboxPolygon routes m = Ok m' ->
  Forall (fun route => pointsOnRoutes route <> None) routes.
Proof.
  revert m. induction routes as [| route routes IH]; intros m; [constructor |].
  cbn [viewportLoop]. destruct (pointsOnRoutes route) as [pors |] eqn:E; [| discriminate].
  intros H. constructor; [congruence | now apply IH in H].
Qed.

Lemma first_by_id_In (seen : list ident) (l : list Point) (pt : Point) :
  In pt (first_by_id seen l) -> In pt l.
Proof.
  revert seen. induction l as [| pt' l IH]; intros seen; [intros [] |].
  cbn [first_by_id]. destruct (existsb _ seen).
  - intros H. right. now apply IH in H.
  - intros [<- | H]; [now left | right; now apply IH in H].
Qed.

Lemma first_by_id_covers (seen : list ident) (l : list Point) (pt : Point) :
  In pt l -> In (point_id pt) (seen ++ map point_id (first_by_id seen l)).
Proof.
  revert seen. induction l as [| pt' l IH]; intros seen; [intros [] |].
  cbn [first_by_id]. destruct (existsb _ seen) eqn:E.
  - intros [<- | H]; [| now apply IH].
    apply existsb_exists in E as (k & Hk & Hsame).
    apply sameValueZero_eq in Hsame as <-. apply in_or_app. now left.
  - intros [<- | H].
    + apply in_or_app. right. now left.
    + specialize (IH (seen ++ [point_id pt']) H).
      rewrite <- app_assoc in IH. exact IH.
Qed.

(** X11.  [findPointsInViewport] throws as soon as one route of the
    dataset has no array of points; otherwise, for corners none of
    which is [NaN], it returns, in the order the loops meet them, the
    points with a truthy identifier whose region is a valid polygon
    meeting the viewport, the first one only of each identifier.  (On a
    [NaN] corner [turf.bboxPolygon] throws and the query rethrows.) *)
Theorem findPointsInViewport_result
    (routes : list Route) (lng1 lat1 lng2 lat2 : number) :
  (Num.isNaN lng1 || Num.isNaN lat1 || Num.isNaN lng2 || Num.isNaN lat2 = false ->
   Forall (fun route => pointsOnRoutes route <> None) routes ->
   find_points routes lng1 lat1 lng2 lat2
   = Ok (first_by_id []
           (filter (wanted_in (turf_bboxPolygon (corners_bbox lng1 lat1 lng2 lat2)))
                   (referenced_points routes))))
  /\ (Exists (fun route => pointsOnRoutes route = None) routes ->
      exists message, find_points routes lng1 lat1 lng2 lat2 = Throw message).
Proof.
  unfold findPointsInViewport. fold (corners_bbox lng1 lat1 lng2 lat2). split.
  - intros _ Hall.
    destruct (viewportLoop_first_by_id
                (turf_bboxPolygon (corners_bbox lng1 lat1 lng2 lat2)) routes [] Hall)
      as (m' & -> & Hvalues & _).
    now rewrite Hvalues.
  - intros Hmissing.
    destruct (viewportLoop_throws
                (turf_bboxPolygon (corners_bbox lng1 lat1 lng2 lat2)) routes [] Hmissing)
      as (message & ->).
    now exists message.
Qed.

(** X12.  Every point that [findPointsInViewport] returns is a point
    of the dataset with a truthy identifier and a valid polygon region
    that meets the viewport; and every such point of the dataset is
    represented in the result by a point with its identifier. *)
Theorem findPointsInViewport_sound_complete
    (routes : list Route) (lng1 lat1 lng2 lat2 : number) (points : list Point) :
  find_points routes lng1 lat1 lng2 lat2 = Ok points ->
  (forall pt, In pt points ->
     In pt (referenced_points routes)
     /\ ident_truthy (point_id pt) = true
     /\ in_viewport pt (turf_bboxPolygon (corners_bbox lng1 lat1 lng2 lat2)) = true)
  /\ (forall pt, In pt (referenced_points routes) ->
        ident_truthy (point_id pt) = true ->
        in_viewport pt (turf_bboxPolygon (corners_bbox lng1 lat1 lng2 lat2)) = true ->
        In (point_id pt) (map point_id points)).
Proof.
  unfold findPointsInViewport. fold (corners_bbox lng1 lat1 lng2 lat2).
  set (bboxPolygon := turf_bboxPolygon (corners_bbox lng1 lat1 lng2 lat2)).
  destruct (viewport_loop bboxPolygon routes []) as [m' |] eqn:E; [| discriminate].
  intros [= <-].
  pose proof (viewportLoop_Ok_all_iterable _ _ _ _ E) as Hall.
  destruct (viewportLoop_first_by_id bboxPolygon routes [] Hall) as (m'' & E' & Hvalues & _).
  rewrite E in E'. injection E' as <-. rewrite Hvalues. cbn [map_values map app].
  split.
  - intros pt Hpt. apply first_by_id_In in Hpt. apply filter_In in Hpt as [Hin Hw].
    unfold wanted in Hw. apply andb_prop in Hw as [Ht Hv]. now repeat split.
  - intros pt Hin Ht Hv.
    apply (first_by_id_covers [] _ pt). apply filter_In. split; [exact Hin |].
    unfold wanted. now rewrite Ht, Hv.
Qed.

End ViewportResult.

Section ViewportResultExamples.

(** X11 on the sample dataset of [findPointsInViewport_sample]. *)
Lemma findPointsInViewport_result_witness :
  findPointsInViewport value sample_polygon sample_bboxPolygon sample_intersects
    [square_route [IdNum (Fin 0); IdStr "a"]; square_route [IdStr "a"]]
    (Fin (-1)) (Fin (-1)) (Fin 2) (Fin 2)
  = Ok (first_by_id []
          (filter (wanted value sample_polygon sample_intersects
                     (sample_bboxPolygon (corners_bbox (Fin (-1)) (Fin (-1)) (Fin 2) (Fin 2))))
                  (referenced_points
                     [square_route [IdNum (Fin 0); IdStr "a"]; square_route [IdStr "a"]]))).
Proof.
  apply (findPointsInViewport_result value sample_polygon sample_bboxPolygon
           sample_intersects).
  - reflexivity.
  - repeat constructor; discriminate.
Defined.

(** X12 on the same dataset: the point of identifier ["a"] is in the
    dataset and meets the viewport. *)
Lemma findPointsInViewport_sound_complete_witness :
  In (square_point (IdStr "a"))
     (referenced_points
        [square_route [IdNum (Fin 0); IdStr "a"]; square_route [IdStr "a"]]).
Proof.
  apply (proj1 (findPointsInViewport_sound_complete _ _ _ _ _ _ _ _ _ _
                  findPointsInViewport_sample)).
  now left.
Defined.

End ViewportResultExamples.

(** ** The ranking for any count *)

Section NearestRoutesAnyCount.

Variable Poly : Type.
Variable turf_point : coord -> option PointFeature.
Variable turf_polygon : value -> option Poly.
Variable turf_booleanPointInPolygon : PointFeature -> Poly -> option bool.

Local Abbreviation with_distance :=
  (withDistance Poly turf_polygon turf_booleanPointInPolygon).
Local Abbreviation find_nearest :=
  (findNearestRoutes Poly turf_point turf_polygon turf_booleanPointInPolygon).
Local Abbreviation ranking :=
  (ranking_distance Poly turf_polygon turf_booleanPointInPolygon).

(** X13.  [findNearestRoutes] throws exactly when [turf.point] rejects
    the query point, never because of a route.  Otherwise it returns
    the nearest routes of the dataset, in the order of their distances:
    [min count n] of them for a count of 0 or more (none for 0), and all
    but the [-count] last ones for a negative count. *)
Theorem findNearestRoutes_any_count
    (routes : list Route) (lng lat : number) (count : Z) :
  match turf_point (lng, lat) with
  | None => exists message, find_nearest routes lng lat count = Throw message
  | Some userPoint =>
      exists result rest,
        find_nearest routes lng lat count = Ok result
        /\ Permutation (result ++ rest) routes
        /\ StronglySorted
             (fun r1 r2 => Num.lt (ranking userPoint r2) (ranking userPoint r1) = false)
             (result ++ rest)
        /\ Z.of_nat (length result)
           = if (count <? 0)%Z
             then Z.max (Z.of_nat (length routes) + count) 0
             else Z.min count (Z.of_nat (length routes))
  end.
Proof.
  unfold findNearestRoutes.
  destruct (turf_point (lng, lat)) as [userPoint |]; [| now eexists].
  set (pairs := map (with_distance userPoint) routes).
  set (sorted := array_sort (fun a b => Num.sub (snd a) (snd b)) pairs).
  assert (Permutation sorted pairs) as Hperm by apply (array_sort_perm snd).
  assert (length sorted = length routes) as Hlen.
  { rewrite (Permutation_length Hperm). apply length_map. }
  unfold slice_from_0. rewrite Hlen.
  set (final := if (count <? 0)%Z
                then Z.max (Z.of_nat (length routes) + count) 0
                else Z.min count (Z.of_nat (length routes))).
  exists (map fst (firstn (Z.to_nat final) sorted)),
         (map fst (skipn (Z.to_nat final) sorted)).
  rewrite <- map_app, firstn_skipn.
  split; [reflexivity |]. split; [| split].
  - rewrite Hperm. unfold pairs. rewrite map_map.
    erewrite map_ext; [rewrite map_id; reflexivity |].
    intros r. apply withDistance_fst.
  - apply (StronglySorted_map_in fst
             (fun a b => Num.lt (snd b) (snd a) = false) _
             (fun p => p = with_distance userPoint (fst p))).
    + intros a b Ha Hb Hab. unfold ranking_distance. now rewrite <- Ha, <- Hb.
    + eapply Permutation_Forall; [symmetry; exact Hperm |].
      apply Forall_forall. intros p Hp. apply in_map_iff in Hp as (r & <- & _).
      now rewrite withDistance_fst.
    + apply (array_sort_sorted snd).
      apply Forall_forall. intros p Hp. apply in_map_iff in Hp as (r & <- & _).
      apply ranking_distance_not_NaN.
  - rewrite length_map, length_firstn, Hlen. subst final.
    destruct (count <? 0)%Z eqn:E; [apply Z.ltb_lt in E | apply Z.ltb_ge in E]; lia.
Qed.

End NearestRoutesAnyCount.

(** ** The cache over several calls *)

Section CacheSequences.

Import DataService.

Local Open Scope Z_scope.

(** One call: it succeeds when something is cached, and what it
    returns is what is cached afterwards. *)
Lemma getRoutes_step (this : t) (currentTime : Z) (response : option (list Route)) :
  let '(answer, this') := run (getRoutes this currentTime) response in
  (cachedData this <> None -> is_Ok answer = true)
  /\ (forall data, answer = Ok data -> cachedData this' = Some data)
  /\ (is_Ok answer = false -> this' = this /\ cachedData this = None /\ response = None).
Proof.
  unfold getRoutes.
  destruct (cachedData this) as [data |] eqn:Hc.
  - destruct (currentTime - lastFetchTime this <? CACHE_TTL); cbn [run].
    + repeat split; try discriminate. intros d [= <-]. exact Hc.
    + destruct response as [data' |]; repeat split; try discriminate.
      * now intros d [= <-].
      * intros d [= <-]. exact Hc.
  - cbn [run]. destruct response as [data' |]; repeat split; try discriminate;
      try contradiction; try exact Hc.
    all: now intros d [= <-].
Qed.

(** X14.  Once [getRoutes] has succeeded it never fails again: in any
    sequence of calls, all failures come before all successes, and
    there is no failure at all when the instance starts with a cached
    dataset.  The cache is never emptied. *)
Theorem getRoutes_sequence_outcomes (this : t) (calls : list (Z * option (list Route))) :
  exists failures successes,
    fst (getRoutes_sequence this calls) = failures ++ successes
    /\ Forall (fun answer => is_Ok answer = false) failures
    /\ Forall (fun answer => is_Ok answer = true) successes
    /\ (cachedData this <> None -> failures = [])
    /\ (cachedData this <> None ->
        cachedData (snd (getRoutes_sequence this calls)) <> None).
Proof.
  revert this. induction calls as [| [currentTime response] calls IH]; intros this.
  - exists [], []. cbn. repeat split; auto.
  - cbn [getRoutes_sequence].
    pose proof (getRoutes_step this currentTime response) as Hstep.
    destruct (run (getRoutes this currentTime) response) as [answer this'].
    destruct Hstep as (Hcached & Hserved & Hfailed).
    destruct (IH this') as (failures & successes & Hrest & Hf & Hs & Hnone & Hkeep).
    destruct (getRoutes_sequence this' calls) as [answers final]. cbn [fst snd] in *.
    destruct (is_Ok answer) eqn:Hok.
    + assert (cachedData this' <> None) as Hc'.
      { destruct answer as [data |]; [| discriminate]. now rewrite (Hserved data eq_refl). }
      specialize (Hnone Hc'). subst failures. cbn [app] in Hrest.
      exists [], (answer :: successes). cbn [app]. rewrite Hrest.
      repeat split; auto.
    + destruct (Hfailed eq_refl) as (-> & Hc & _).
      exists (answer :: failures), successes. cbn [app]. rewrite Hrest.
      repeat split; auto; intros F; contradiction.
Qed.

(** X14 on an instance with a cached dataset: four calls, whatever the
    upstream does, succeed. *)
Lemma getRoutes_sequence_outcomes_witness :
  let warm := {| cachedData := Some []; lastFetchTime := 0 |} in
  exists successes,
    fst (getRoutes_sequence warm
           [(1000, None); (700000, None); (700001, Some [broken_route]); (2000000, None)])
    = successes
    /\ Forall (fun answer => is_Ok answer = true) successes.
Proof.
  intros warm.
  destruct (getRoutes_sequence_outcomes warm
              [(1000, None); (700000, None); (700001, Some [broken_route]); (2000000, None)])
    as (failures & successes & Hres & _ & Hs & Hnone & _).
  rewrite (Hnone ltac:(discriminate)) in Hres. exists successes. now split.
Defined.

(** X15.  A failed request is not remembered: it leaves
    [lastFetchTime] alone, so the next call, at the same time or later,
    makes the request again. *)
Theorem getRoutes_retries_after_failure (this : t) (t1 t2 : Z) :
  fetches (getRoutes this t1) = true ->
  t1 <= t2 ->
  fetches (getRoutes (snd (run (getRoutes this t1) None)) t2) = true.
Proof.
  intros Hf Hle. rewrite getRoutes_fetch_failed by exact Hf.
  assert (snd match cachedData this with
              | Some data => (Ok data, this)
              | None => (Throw "Unable to fetch data and no cached data available.", this)
              end = this) as -> by now destruct (cachedData this).
  apply getRoutes_fetches_iff. apply getRoutes_fetches_iff in Hf as [Hf | Hf];
    [now left | right; lia].
Qed.

(** X15 on a stale instance: the request fails at 900000 and is made
    again one millisecond later. *)
Lemma getRoutes_retries_after_failure_witness :
  let stale := {| cachedData := Some []; lastFetchTime := 0 |} in
  fetches (getRoutes (snd (run (getRoutes stale 900000) None)) 900001) = true.
Proof.
  intros stale. apply getRoutes_retries_after_failure; [reflexivity | lia].
Defined.

(** X16.  After a request that succeeded at [t0], every call less than
    [CACHE_TTL] later returns the dataset received then, without a
    request and whatever the upstream holds by now; from [CACHE_TTL] on,
    a call makes the request and, if it succeeds, returns and caches the
    new dataset with the time of that call. *)
Theorem getRoutes_after_successful_request
    (this : t) (t0 t1 : Z) (data : list Route) (response : option (list Route)) :
  fetches (getRoutes this t0) = true ->
  let refreshed := snd (run (getRoutes this t0) (Some data)) in
  (t1 - t0 < CACHE_TTL ->
   fetches (getRoutes refreshed t1) = false
   /\ run (getRoutes refreshed t1) response = (Ok data, refreshed))
  /\ (CACHE_TTL <= t1 - t0 ->
      fetches (getRoutes refreshed t1) = true
      /\ forall data',
           run (getRoutes refreshed t1) (Some data')
           = (Ok data', {| cachedData := Some data'; lastFetchTime := t1 |})).
Proof.
  intros Hf. rewrite getRoutes_fetch_succeeded by exact Hf. cbn [snd]. split.
  - intros Hage.
    rewrite (getRoutes_fresh {| cachedData := Some data; lastFetchTime := t0 |} t1 data
               eq_refl Hage).
    now split.
  - intros Hage.
    assert (fetches (getRoutes {| cachedData := Some data; lastFetchTime := t0 |} t1) = true)
      as Hf' by (apply getRoutes_fetches_iff; now right).
    split; [exact Hf' |]. intros data'. now apply getRoutes_fetch_succeeded.
Qed.

(** X16 from a new instance: a dataset received at time 0 is still
    served at 599999, although the upstream has another one. *)
Lemma getRoutes_after_successful_request_witness :
  let refreshed := snd (run (getRoutes initial 0) (Some [broken_route])) in
  run (getRoutes refreshed 599999) (Some []) = (Ok [broken_route], refreshed).
Proof.
  intros refreshed.
  apply (getRoutes_after_successful_request initial 0 599999 [broken_route] (Some [])
           eq_refl).
  reflexivity.
Defined.

End CacheSequences.

(** ** The HTTP handlers *)

Section HandlerResponses.

Import DataService.

Variable Poly : Type.
Variable turf_point : coord -> option PointFeature.
Variable turf_polygon : value -> option Poly.
Variable turf_booleanPointInPolygon : PointFeature -> Poly -> option bool.
Variable turf_bboxPolygon : number * number * number * number -> Poly.
Variable turf_booleanIntersects : Poly -> Poly -> option bool.

Local Abbreviation find_nearest :=
  (findNearestRoutes Poly turf_point turf_polygon turf_booleanPointInPolygon).
Local Abbreviation find_points :=
  (findPointsInViewport Poly turf_polygon turf_bboxPolygon turf_booleanIntersects).
Local Abbreviation nearest_handler :=
  (RouteController_findNearestRoutes Poly turf_point turf_polygon turf_booleanPointInPolygon).
Local Abbreviation viewport_handler :=
  (RouteController_findPointsInViewport Poly turf_polygon turf_bboxPolygon
     turf_booleanIntersects).

Lemma run_io_map {A B : Type} (f : A -> B) (c : io A) (response : option (list Route)) :
  run (io_map f c) response = f (run c response).
Proof. now destruct c. Qed.

Lemma fetches_io_map {A B : Type} (f : A -> B) (c : io A) :
  fetches (io_map f c) = fetches c.
Proof. now destruct c. Qed.

Lemma In_firstn {A : Type} (n : nat) (l : list A) (x : A) : In x (firstn n l) -> In x l.
Proof.
  intros H. rewrite <- (firstn_skipn n l). apply in_or_app. now left.
Qed.

Lemma findNearestRoutes_Ok
    (routes : list Route) (lng lat : number) (count : Z) (result : list Route) :
  (0 <= count)%Z ->
  find_nearest routes lng lat count = Ok result ->
  Z.of_nat (length result) = Z.min count (Z.of_nat (length routes))
  /\ incl result routes.
Proof.
  intros Hcount. unfold findNearestRoutes.
  destruct (turf_point (lng, lat)) as [userPoint |]; [| discriminate].
  intros [= <-].
  set (pairs := map (withDistance Poly turf_polygon turf_booleanPointInPolygon userPoint)
                    routes).
  set (sorted := array_sort (fun a b => Num.sub (snd a) (snd b)) pairs).
  assert (Permutation sorted pairs) as Hperm by apply (array_sort_perm snd).
  assert (length sorted = length routes) as Hlen.
  { rewrite (Permutation_length Hperm). apply length_map. }
  rewrite slice_from_0_firstn by exact Hcount. split.
  - rewrite length_map, length_firstn, Hlen. lia.
  - intros r Hr. apply in_map_iff in Hr as (p & <- & Hp).
    apply In_firstn in Hp. apply (Permutation_in p Hperm) in Hp.
    apply in_map_iff in Hp as (r & <- & Hr). now rewrite withDistance_fst.
Qed.

Lemma findNearestRoutes_Throw_iff
    (routes : list Route) (lng lat : number) (count : Z) :
  (exists message, find_nearest routes lng lat count = Throw message)
  <-> turf_point (lng, lat) = None.
Proof.
  unfold findNearestRoutes. destruct (turf_point (lng, lat)).
  - split; [intros [message H]; discriminate | discriminate].
  - split; [reflexivity | now eexists].
Qed.

(** X17.  The handler of [/api/findNearestRoutes] answers 400, without
    asking for the dataset, exactly when a coordinate reads [NaN], or
    the count reads [NaN] or is 0 or less; an absent count is 10.
    Otherwise it answers 200 with [min count n] routes of the dataset
    the cache serves, or 500, and 500 exactly when the cache fails or
    [turf.point] rejects the point.  There is no other status. *)
Theorem RouteController_findNearestRoutes_responses
    (this : t) (currentTime : Z) (query : NearestQuery) (response : option (list Route)) :
  let handler := nearest_handler this currentTime query in
  let res := fst (run handler response) in
  let served := fst (run (getRoutes this currentTime) response) in
  (status res = 400%Z <-> nearest_query_refused query = true)
  /\ (nearest_query_refused query = true ->
      fetches handler = false /\ snd (run handler response) = this)
  /\ (status res = 200%Z ->
      exists dataset routes,
        served = Ok dataset
        /\ body res = RoutesBody routes
        /\ find_nearest dataset (query_lng query) (query_lat query) (requested_count query)
           = Ok routes
        /\ Z.of_nat (length routes)
           = Z.min (requested_count query) (Z.of_nat (length dataset))
        /\ incl routes dataset)
  /\ (status res = 500%Z <->
      nearest_query_refused query = false
      /\ (is_Ok served = false
          \/ turf_point (query_lng query, query_lat query) = None))
  /\ (status res = 200%Z \/ status res = 400%Z \/ status res = 500%Z).
Proof.
  cbv zeta. unfold RouteController_findNearestRoutes, nearest_query_refused, requested_count.
  destruct query as [lng lat count]. cbn [query_lng query_lat query_count].
  destruct (Num.isNaN lng || Num.isNaN lat) eqn:Hnan; cbn [orb run fst snd status fetches].
  { repeat split; auto; try discriminate; intros [F _]; discriminate. }
  assert (forall n : Z,
             (n <=? 0)%Z = false ->
             let handler :=
               io_map
                 (fun '(answer, this') =>
                    match answer with
                    | Ok routes => (mkResponse 200 (RoutesBody routes), this')
                    | Throw _ =>
                        (mkResponse 500 (ErrorBody "Error while finding nearest routes."),
                         this')
                    end)
                 (GeoService_findNearestRoutes Poly turf_point turf_polygon
                    turf_booleanPointInPolygon this currentTime lng lat n) in
             let res := fst (run handler response) in
             let served := fst (run (getRoutes this currentTime) response) in
             (status res = 400%Z <-> false = true)
             /\ (false = true -> fetches handler = false /\ snd (run handler response) = this)
             /\ (status res = 200%Z ->
                 exists dataset routes,
                   served = Ok dataset
                   /\ body res = RoutesBody routes
                   /\ find_nearest dataset lng lat n = Ok routes
                   /\ Z.of_nat (length routes) = Z.min n (Z.of_nat (length dataset))
                   /\ incl routes dataset)
             /\ (status res = 500%Z <->
                 false = false
                 /\ (is_Ok served = false \/ turf_point (lng, lat) = None))
             /\ (status res = 200%Z \/ status res = 400%Z \/ status res = 500%Z)) as Hvalid.
  { intros n Hn. cbv zeta. unfold GeoService_findNearestRoutes.
    rewrite !run_io_map.
    destruct (run (getRoutes this currentTime) response) as [[dataset | e] this'];
      cbn [fst snd is_Ok].
    - destruct (find_nearest dataset lng lat n) as [routes | e] eqn:Hfind;
        cbn [fst status body].
      + split; [split; discriminate |]. split; [discriminate |]. split.
        * intros _. exists dataset, routes.
          apply Z.leb_gt in Hn.
          destruct (findNearestRoutes_Ok dataset lng lat n routes ltac:(lia) Hfind).
          repeat split; auto.
        * split; [| now left].
          split; [discriminate |]. intros [_ [F | F]]; [discriminate |].
          apply findNearestRoutes_Throw_iff with (routes := dataset) (count := n) in F.
          destruct F as [message F]. congruence.
      + split; [split; discriminate |]. split; [discriminate |].
        split; [discriminate |]. split; [| now right; right].
        split; [| reflexivity]. intros _. split; [reflexivity |]. right.
        apply (findNearestRoutes_Throw_iff dataset lng lat n). now exists e.
    - cbn [fst status]. split; [split; discriminate |]. split; [discriminate |].
      split; [discriminate |]. split; [| now right; right].
      split; [| reflexivity]. intros _. split; [reflexivity | now left]. }
  destruct count as [[n |] |].
  - destruct (n <=? 0)%Z eqn:Hn; [| exact (Hvalid n Hn)].
    cbn [run fst snd status fetches].
    repeat split; auto; try discriminate; intros [F _]; discriminate.
  - cbn [run fst snd status fetches].
    repeat split; auto; try discriminate; intros [F _]; discriminate.
  - exact (Hvalid 10%Z eq_refl).
Qed.

Lemma iterable_or_not (routes : list Route) :
  Forall (fun route => pointsOnRoutes route <> None) routes
  \/ Exists (fun route => pointsOnRoutes route = None) routes.
Proof.
  induction routes as [| route routes [IH | IH]].
  - left. constructor.
  - destruct (pointsOnRoutes route) eqn:E.
    + left. constructor; [congruence | exact IH].
    + right. now apply Exists_cons_hd.
  - right. now apply Exists_cons_tl.
Qed.

Lemma findPointsInViewport_Throw_iff
    (routes : list Route) (lng1 lat1 lng2 lat2 : number) :
  (exists message, find_points routes lng1 lat1 lng2 lat2 = Throw message)
  <-> Exists (fun route => pointsOnRoutes route = None) routes.
Proof.
  split.
  - intros [message H]. destruct (iterable_or_not routes) as [Hall | Hex]; [| exact Hex].
    destruct (findPointsInViewport_returns Poly turf_polygon turf_bboxPolygon
                turf_booleanIntersects routes lng1 lat1 lng2 lat2 Hall) as [points F].
    congruence.
  - intros Hex. unfold findPointsInViewport.
    destruct (viewportLoop_throws Poly turf_polygon turf_booleanIntersects
                (turf_bboxPolygon
                   (Num.min lng1 lng2, Num.min lat1 lat2, Num.max lng1 lng2,
                    Num.max lat1 lat2)) routes [] Hex) as [message ->].
    now exists message.
Qed.

(** X18.  The handler of [/api/findPointsInViewport] answers 400,
    without asking for the dataset, exactly when one of the four
    coordinates reads [NaN].  Otherwise it answers 200 with the points
    found in the dataset the cache serves, no two of them with the same
    identifier, or 500, and 500 exactly when the cache fails or a route
    of the dataset has no array of points.  There is no other status. *)
Theorem RouteController_findPointsInViewport_responses
    (this : t) (currentTime : Z) (query : ViewportQuery) (response : option (list Route)) :
  let handler := viewport_handler this currentTime query in
  let res := fst (run handler response) in
  let served := fst (run (getRoutes this currentTime) response) in
  (status res = 400%Z <-> viewport_query_refused query = true)
  /\ (viewport_query_refused query = true ->
      fetches handler = false /\ snd (run handler response) = this)
  /\ (status res = 200%Z ->
      exists dataset points,
        served = Ok dataset
        /\ body res = PointsBody points
        /\ find_points dataset (query_lng1 query) (query_lat1 query)
             (query_lng2 query) (query_lat2 query) = Ok points
        /\ NoDup (map point_id points))
  /\ (status res = 500%Z <->
      viewport_query_refused query = false
      /\ (is_Ok served = false
          \/ exists dataset,
               served = Ok dataset
               /\ Exists (fun route => pointsOnRoutes route = None) dataset))
  /\ (status res = 200%Z \/ status res = 400%Z \/ status res = 500%Z).
Proof.
  cbv zeta. unfold RouteController_findPointsInViewport, viewport_query_refused.
  destruct query as [lng1 lat1 lng2 lat2].
  cbn [query_lng1 query_lat1 query_lng2 query_lat2].
  destruct (Num.isNaN lng1 || Num.isNaN lat1 || Num.isNaN lng2 || Num.isNaN lat2) eqn:Hnan;
    cbn [run fst snd status fetches].
  { repeat split; auto; try discriminate; intros [F _]; discriminate. }
  unfold GeoService_findPointsInViewport. rewrite !run_io_map.
  destruct (run (getRoutes this currentTime) response) as [[dataset | e] this'];
    cbn [fst snd is_Ok].
  - destruct (find_points dataset lng1 lat1 lng2 lat2) as [points | e] eqn:Hfind;
      cbn [fst status body].
    + split; [split; discriminate |]. split; [discriminate |]. split.
      * intros _. exists dataset, points. repeat split; auto.
        destruct (findPointsInViewport_map_ok Poly turf_polygon turf_bboxPolygon
                    turf_booleanIntersects dataset lng1 lat1 lng2 lat2 points Hfind)
          as (m & Hm & ->).
        rewrite map_ok_ids by exact Hm. apply Hm.
      * split; [| now left].
        split; [discriminate |]. intros [_ [F | (dataset' & [= <-] & F)]]; [discriminate |].
        apply (findPointsInViewport_Throw_iff dataset lng1 lat1 lng2 lat2) in F.
        destruct F as [message F]. congruence.
    + split; [split; discriminate |]. split; [discriminate |].
      split; [discriminate |]. split; [| now right; right].
      split; [| reflexivity]. intros _. split; [reflexivity |]. right.
      exists dataset. split; [reflexivity |].
      apply (findPointsInViewport_Throw_iff dataset lng1 lat1 lng2 lat2). now exists e.
  - cbn [fst status]. split; [split; discriminate |]. split; [discriminate |].
    split; [discriminate |]. split; [| now right; right].
    split; [| reflexivity]. intros _. split; [reflexivity | now left].
Qed.

End HandlerResponses.

(** ** A query point on a vertex *)

Section OnAVertex.

Local Open Scope R_scope.

(** A point of moderate latitude is at distance 0 from itself. *)
Lemma haversine_same_point (x y : R) :
  moderate y -> haversineDistance (Fin x, Fin y) (Fin x, Fin y) = Fin 0.
Proof.
  intros _. unfold haversineDistance. cbv zeta. cbn [Num.sub].
  replace (y - y) with 0 by lra. replace (x - x) with 0 by lra.
  rewrite !toRadians_Fin.
  replace (0 * Rtrigo1.PI / 180) with 0 by lra.
  rewrite NumFacts.div_Fin by lra.
  replace (0 / 2) with 0 by lra.
  cbn [Num.sin Num.cos Num.mul Num.add]. rewrite sin_0.
  match goal with |- context [Num.sqrt (Fin ?e)] => replace e with 0 by lra end.
  apply distance_of_zero_haversine.
Qed.

Lemma proper_length_pos (x y x2 y2 : R) :
  x <> x2 \/ y <> y2 -> 0 < (x2 - x) * (x2 - x) + (y2 - y) * (y2 - y).
Proof.
  pose proof (Rle_0_sqr (x2 - x)) as Hx. pose proof (Rle_0_sqr (y2 - y)) as Hy.
  unfold Rsqr in Hx, Hy.
  intros [H | H].
  - assert (0 < (x2 - x) * (x2 - x)) by (apply (Rsqr_pos_lt (x2 - x)); lra). lra.
  - assert (0 < (y2 - y) * (y2 - y)) by (apply (Rsqr_pos_lt (y2 - y)); lra). lra.
Qed.

(** The start of a segment is at distance 0 from the segment, for
    ends of moderate coordinates. *)
Lemma pointToLineDistance_at_start (x y x2 y2 : R) :
  moderate x -> moderate y -> moderate x2 -> moderate y2 ->
  pointToLineDistance (Fin x, Fin y) (Fin x, Fin y) (Fin x2, Fin y2) = Fin 0.
Proof.
  intros _ Hy _ _.
  unfold pointToLineDistance, Num.strict_eq, Num.Reqb.
  destruct (Req_dec_T x x2) as [Ex | Nx]; [destruct (Req_dec_T y y2) as [Ey | Ny] |];
    cbn [andb]; try (apply haversine_same_point; exact Hy).
  all: assert (0 < (x2 - x) * (x2 - x) + (y2 - y) * (y2 - y)) as Hpos
    by (apply proper_length_pos; tauto).
  all: cbv zeta; cbn [Num.sub Num.mul Num.add].
  all: unfold Num.strict_ne, Num.strict_eq, Num.Reqb.
  all: destruct (Req_dec_T ((x2 - x) * (x2 - x) + (y2 - y) * (y2 - y)) 0) as [E | N];
    cbn [negb]; [exfalso; lra |].
  all: rewrite NumFacts.div_Fin by exact N.
  all: unfold Num.gt, Num.lt, Num.Rltb.
  all: replace (((x - x) * (x2 - x) + (y - y) * (y2 - y))
                / ((x2 - x) * (x2 - x) + (y2 - y) * (y2 - y))) with 0
    by (field; exact N).
  all: destruct (Rlt_dec 0 0); [lra |]; destruct (Rlt_dec 1 0); [lra |].
  all: cbn [Num.mul Num.add].
  all: replace (x + 0 * (x2 - x)) with x by lra; replace (y + 0 * (y2 - y)) with y by lra.
  all: apply haversine_same_point; exact Hy.
Qed.

(** A minimum of distances one of which is 0 is 0. *)
Lemma minimum_of_zero (m : number) (l : list number) :
  minimum_of m l -> distance_value m -> In (Fin 0) l -> m = Fin 0.
Proof.
  intros (_ & Hlow & _) Hm Hin. specialize (Hlow (Fin 0) Hin).
  destruct Hm as [-> | (d & -> & Hd)]; [discriminate Hlow |].
  cbn in Hlow. unfold Num.Rltb in Hlow.
  destruct (Rlt_dec 0 d); [discriminate |]. f_equal. lra.
Qed.

(** X19.  A query point that is the start of an edge of one of the
    rings, the coordinates of both ends of that edge being at most
    [1e307] in absolute value, is at distance 0 from the polygon.  (The
    bound keeps the differences of the coordinates and the conversion
    of the latitude to radians within the range of a double; the other
    edges of the polygon are arbitrary.) *)
Theorem calculateMinimumDistanceManually_on_vertex
    (x y x2 y2 : R) (r : ring) (rings : list ring) :
  moderate x -> moderate y -> moderate x2 -> moderate y2 ->
  In r rings ->
  In ((Fin x, Fin y), (Fin x2, Fin y2)) (edges r) ->
  calculateMinimumDistanceManually (mkPointFeature (Fin x, Fin y)) rings = Fin 0.
Proof.
  intros Hx Hy Hx2 Hy2 Hr He.
  apply (minimum_of_zero _ (edge_distances (Fin x, Fin y) rings)).
  - rewrite calculateMinimumDistanceManually_fold. apply fold_min_step_minimum.
  - rewrite calculateMinimumDistanceManually_fold.
    apply fold_min_step_distance_value; [now left | apply edge_distances_bounded].
  - unfold edge_distances. apply in_flat_map. exists r. split; [exact Hr |].
    apply in_map_iff. exists ((Fin x, Fin y), (Fin x2, Fin y2)). split; [| exact He].
    now apply pointToLineDistance_at_start.
Qed.

(** X19 at the corner [(0, 1)] of the unit square. *)
Lemma calculateMinimumDistanceManually_on_vertex_witness :
  calculateMinimumDistanceManually (mkPointFeature (Fin 0, Fin 1)) [unit_square] = Fin 0.
Proof.
  apply (calculateMinimumDistanceManually_on_vertex 0 1 1 1 unit_square);
    try (unfold moderate; lra).
  - now left.
  - cbn. right. now left.
Defined.

(** X7 at a polygon whose only ring has a single point. *)
Lemma calculateMinimumDistanceManually_minimum_witness :
  calculateMinimumDistanceManually (mkPointFeature (Fin 0, Fin 1)) [[(Fin 5, Fin 5)]]
  = PInf.
Proof.
  apply (calculateMinimumDistanceManually_minimum (mkPointFeature (Fin 0, Fin 1))
           [[(Fin 5, Fin 5)]]).
  constructor; [cbn; lia | constructor].
Defined.

End OnAVertex.

Section HandlerExamples.

Import DataService.

(** X17 on a query whose longitude does not read as a number. *)
Lemma RouteController_findNearestRoutes_responses_witness :
  status
    (fst (run (RouteController_findNearestRoutes value sample_point_feature sample_polygon
                 sample_outside initial 0 (mkNearestQuery NaN (Fin 45) None))
              None))
  = 400%Z.
Proof.
  apply (RouteController_findNearestRoutes_responses value sample_point_feature
           sample_polygon sample_outside initial 0 (mkNearestQuery NaN (Fin 45) None) None).
  reflexivity.
Defined.

(** X18 on a query whose last coordinate does not read as a number. *)
Lemma RouteController_findPointsInViewport_responses_witness :
  status
    (fst (run (RouteController_findPointsInViewport value sample_polygon sample_bboxPolygon
                 sample_intersects initial 0
                 (mkViewportQuery (Fin 1) (Fin 2) (Fin 3) NaN))
              None))
  = 400%Z.
Proof.
  apply (RouteController_findPointsInViewport_responses value sample_polygon
           sample_bboxPolygon sample_intersects initial 0
           (mkViewportQuery (Fin 1) (Fin 2) (Fin 3) NaN) None).
  reflexivity.
Defined.

End HandlerExamples.

(** ** The nearest route comes first *)

Section NearestFirst.

Variable Poly : Type.
Variable turf_point : coord -> option PointFeature.
Variable turf_polygon : value -> option Poly.
Variable turf_booleanPointInPolygon : PointFeature -> Poly -> option bool.

Local Abbreviation with_distance :=
  (withDistance Poly turf_polygon turf_booleanPointInPolygon).
Local Abbreviation find_nearest :=
  (findNearestRoutes Poly turf_point turf_polygon turf_booleanPointInPolygon).
Local Abbreviation ranking :=
  (ranking_distance Poly turf_polygon turf_booleanPointInPolygon).

(** X20.  The first route that [findNearestRoutes] returns is a nearest
    one: no route of the dataset has a smaller distance; and no route
    left out of the result is nearer than a returned one. *)
Theorem findNearestRoutes_nearest_first
    (routes : list Route) (lng lat : number) (count : Z)
    (userPoint : PointFeature) (result : list Route) :
  turf_point (lng, lat) = Some userPoint ->
  find_nearest routes lng lat count = Ok result ->
  (forall first others route,
      result = first :: others ->
      In route routes ->
      Num.lt (ranking userPoint route) (ranking userPoint first) = false)
  /\ exists rest,
       Permutation (result ++ rest) routes
       /\ forall returned left_out,
            In returned result -> In left_out rest ->
            Num.lt (ranking userPoint left_out) (ranking userPoint returned) = false.
Proof.
  intros Hpoint. unfold findNearestRoutes. rewrite Hpoint. intros [= <-].
  set (pairs := map (with_distance userPoint) routes).
  set (sorted := array_sort (fun a b => Num.sub (snd a) (snd b)) pairs).
  assert (Permutation sorted pairs) as Hperm by apply (array_sort_perm snd).
  unfold slice_from_0.
  set (k := Z.to_nat _).
  assert (Permutation (map fst sorted) routes) as Hroutes.
  { rewrite Hperm. unfold pairs. rewrite map_map.
    erewrite map_ext; [rewrite map_id; reflexivity |].
    intros r. apply withDistance_fst. }
  assert (StronglySorted
            (fun r1 r2 => Num.lt (ranking userPoint r2) (ranking userPoint r1) = false)
            (map fst (firstn k sorted) ++ map fst (skipn k sorted))) as Hsorted.
  { rewrite <- map_app, firstn_skipn.
    apply (StronglySorted_map_in fst
             (fun a b => Num.lt (snd b) (snd a) = false) _
             (fun p => p = with_distance userPoint (fst p))).
    - intros a b Ha Hb Hab. unfold ranking_distance. now rewrite <- Ha, <- Hb.
    - eapply Permutation_Forall; [symmetry; exact Hperm |].
      apply Forall_forall. intros p Hp. apply in_map_iff in Hp as (r & <- & _).
      now rewrite withDistance_fst.
    - apply (array_sort_sorted snd).
      apply Forall_forall. intros p Hp. apply in_map_iff in Hp as (r & <- & _).
      apply ranking_distance_not_NaN. }
  split.
  - intros first others route Hres Hin. rewrite Hres in Hsorted. cbn [app] in Hsorted.
    apply StronglySorted_inv in Hsorted as [_ Hfirst].
    assert (In route (first :: others ++ map fst (skipn k sorted))) as Hin'.
    { change (In route ((first :: others) ++ map fst (skipn k sorted))).
      rewrite <- Hres, <- map_app, firstn_skipn.
      now apply (Permutation_in route (Permutation_sym Hroutes)). }
    destruct Hin' as [<- | Hin']; [apply NumFacts.lt_irrefl |].
    rewrite Forall_forall in Hfirst. now apply Hfirst.
  - exists (map fst (skipn k sorted)). split.
    + now rewrite <- map_app, firstn_skipn.
    + intros returned left_out Hret Hleft.
      revert Hsorted Hret. generalize (map fst (firstn k sorted)) as l.
      induction l as [| a l IH]; intros Hsorted [].
      * subst a. cbn [app] in Hsorted. apply StronglySorted_inv in Hsorted as [_ Hall].
        rewrite Forall_forall in Hall. apply Hall. apply in_or_app. now right.
      * cbn [app] in Hsorted. apply StronglySorted_inv in Hsorted as [Htail _].
        now apply IH.
Qed.

End NearestFirst.

Section NearestFirstExample.

(** X20 on the sample dataset: the route that throws is not nearer than
    the one returned. *)
Lemma findNearestRoutes_nearest_first_witness :
  exists result,
    findNearestRoutes value sample_point_feature sample_polygon sample_outside
      [broken_route; patchy_route] (Fin 10) (Fin 10) 1 = Ok result
    /\ exists rest, Permutation (result ++ rest) [broken_route; patchy_route].
Proof.
  eexists. split; [reflexivity |].
  destruct (findNearestRoutes_nearest_first value sample_point_feature sample_polygon
              sample_outside [broken_route; patchy_route] (Fin 10) (Fin 10) 1
              (mkPointFeature (Fin 10, Fin 10)) _ eq_refl eq_refl)
    as (_ & rest & Hperm & _).
  now exists rest.
Defined.

End NearestFirstExample.
